(** * HgRepositoryClient: the repository state cache of the Mercurial client

    A shallow embedding of
    [pkg/nuclide-hg-repository-client/lib/HgRepositoryClient.js].

    The client keeps one record of shared members (caches, flags, guard sets)
    and mutates it from the handlers of its reactive pipelines and from a few
    explicit operations.  The record is modelled as [SharedMembers]; every
    method is a function on it.  RxJS pipelines are modelled by the finite run
    of an observable (the values it emits and how it ends) together with the
    effect the run has on the shared members. *)

From Stdlib Require Import ZArith Lia.
From stdpp Require Import base option list strings gmap sets fin_maps.

Open Scope Z_scope.

(** ** Observables *)

Module Rx.

(** How a finite run of an observable ends. *)
Inductive Ending := Completed | Errored.

(** The run of an observable: what it emitted, in order, and its ending. *)
Record Run (A : Type) := mkRun { emits : list A; ending : Ending }.
Arguments mkRun {A} _ _.
Arguments emits {A} _.
Arguments ending {A} _.

(** A promise seen from the moment it is created: the time in milliseconds
    after which it settles, and how. *)
Inductive PromiseRun (A : Type) :=
| Fulfills (ms : Z) (a : A)
| Rejects (ms : Z)
| NeverSettles.
Arguments Fulfills {A} _ _.
Arguments Rejects {A} _.
Arguments NeverSettles {A}.

Section Operators.
Context {St : Type}.

(** An observable whose subscription may change the state [St]. *)
Definition Observable (A : Type) := St -> Run A * St.

Definition of_ {A} (a : A) : Observable A :=
  fun s => (mkRun [a] Completed, s).

Definition empty {A} : Observable A :=
  fun s => (mkRun [] Completed, s).

(** A source whose run is given (a backend call, a promise). *)
Definition from {A} (r : Run A) : Observable A :=
  fun s => (r, s).

(** [Observable.fromPromise(p).timeout(due)] *)
Definition fromPromise_timeout {A} (due : Z) (p : PromiseRun A) : Run A :=
  match p with
  | Fulfills ms a => if ms <? due then mkRun [a] Completed else mkRun [] Errored
  | Rejects ms => mkRun [] Errored
  | NeverSettles => mkRun [] Errored
  end.

Definition map {A B} (f : A -> B) (o : Observable A) : Observable B :=
  fun s => let '(r, s1) := o s in (mkRun (f <$> emits r) (ending r), s1).

(** [o.do(f)]: [f] runs on every value [o] emits. *)
Definition do_ {A} (f : A -> St -> St) (o : Observable A) : Observable A :=
  fun s => let '(r, s1) := o s in (r, foldl (fun acc a => f a acc) s1 (emits r)).

(** [o.catch(() => h)] *)
Definition catch {A} (h : Observable A) (o : Observable A) : Observable A :=
  fun s =>
    let '(r, s1) := o s in
    match ending r with
    | Completed => (r, s1)
    | Errored => let '(r2, s2) := h s1 in (mkRun (emits r ++ emits r2) (ending r2), s2)
    end.

(** [o.finally(f)]: [f] runs when [o] ends, however it ends. *)
Definition finally {A} (f : St -> St) (o : Observable A) : Observable A :=
  fun s => let '(r, s1) := o s in (r, f s1).

(** The inner observables of the values [l], subscribed one after the
    other; an inner error ends the whole run. *)
Fixpoint each {A B} (f : A -> Observable B) (l : list A) : Observable B :=
  fun s =>
    match l with
    | [] => (mkRun [] Completed, s)
    | a :: l' =>
        let '(r, s1) := f a s in
        match ending r with
        | Errored => (r, s1)
        | Completed =>
            let '(r2, s2) := each f l' s1 in
            (mkRun (emits r ++ emits r2) (ending r2), s2)
        end
    end.

(** [o.switchMap(f)], every inner run ending before the next value of
    [o] arrives.  The effects of an operator's callback are applied after
    those of the run it is attached to. *)
Definition switchMap {A B} (f : A -> Observable B) (o : Observable A)
  : Observable B :=
  fun s =>
    let '(r, s1) := o s in
    let '(r2, s2) := each f (emits r) s1 in
    (mkRun (emits r2)
           (match ending r2 with Errored => Errored | Completed => ending r end),
     s2).

(** [Observable.merge(...os)], the sources subscribed in order. *)
Definition merge {A} (os : list (Observable A)) : Observable A :=
  each (fun o => o) os.

(** [o.toArray()] *)
Definition toArray {A} (o : Observable A) : Observable (list A) :=
  fun s =>
    let '(r, s1) := o s in
    match ending r with
    | Completed => (mkRun [emits r] Completed, s1)
    | Errored => (mkRun [] Errored, s1)
    end.

(** [Observable.defer(source).retry(count)]: [source i] is the run of the
    [i]-th subscription; an error resubscribes up to [count] times. *)
Fixpoint retry {A} (count : nat) (source : nat -> Observable A) (i : nat)
  : Observable A :=
  fun s =>
    let '(r, s1) := source i s in
    match ending r, count with
    | Errored, S c =>
        let '(r2, s2) := retry c source (S i) s1 in
        (mkRun (emits r ++ emits r2) (ending r2), s2)
    | _, _ => (r, s1)
    end.

End Operators.
Arguments Observable : clear implicits.

End Rx.

(** ** The bounded caches *)

Module LRU.

Section Cache.
Context {K V : Type} `{EqDecision K}.

(** Modelled from the spec: the [LRU] class of the [lru-cache] package,
    which is not part of the client's source.  The spec describes it as a
    fixed-capacity, recency-ordered cache exposing get, set and
    evict-oldest.  [entries] is ordered from the most recently used entry
    to the least recently used one. *)
Record t := mk { max : nat; entries : list (K * V) }.

(** Modelled from the spec: [new LRU({max})], an empty cache of capacity
    [max]. *)
Definition new (max : nat) : t := mk max [].

(** Modelled from the spec: the entries of [l] under another key than [k]. *)
Definition without (k : K) (l : list (K * V)) : list (K * V) :=
  filter (fun e => e.1 ≠ k) l.

(** Modelled from the spec: [cache.peek(key)], the value under [k] without
    a change of recency. *)
Definition peek (k : K) (c : t) : option V :=
  snd <$> (snd <$> list_find (fun e => e.1 = k) (entries c)).

(** Modelled from the spec: [cache.get(key)]; a hit makes the entry the most
    recently used. *)
Definition get (k : K) (c : t) : option V * t :=
  match peek k c with
  | Some v => (Some v, mk (max c) ((k, v) :: without k (entries c)))
  | None => (None, c)
  end.

(** Modelled from the spec: [cache.set(key, value)]; the entry becomes the
    most recently used, and entries beyond the capacity are dropped from the
    least recently used end. *)
Definition set (k : K) (v : V) (c : t) : t :=
  mk (max c) (take (max c) ((k, v) :: without k (entries c))).

(** Modelled from the spec: [cache.reset()] empties the cache. *)
Definition reset (c : t) : t := mk (max c) [].

(** Modelled from the spec: [cache.length], one per entry. *)
Definition length (c : t) : nat := List.length (entries c).

(** Modelled from the spec: [cache.keys()], most recently used first. *)
Definition keys (c : t) : list K := fst <$> entries c.

End Cache.
Arguments t : clear implicits.

End LRU.

(** ** Data model *)

(** [StatusCodeNumber] of [nuclide-hg-rpc/lib/hg-constants]: the numeric
    status codes.  The table is not part of the client's source; the client
    is parametrised by it. *)
Record StatusCodeNumberTable := {
  ADDED : Z;
  CLEAN : Z;
  IGNORED : Z;
  MODIFIED : Z;
  MISSING : Z;
  REMOVED : Z;
  UNTRACKED : Z
}.

(** [atom$Directory | RemoteDirectory], as far as the client uses it. *)
Record Directory := {
  getPath : string;
  contains : string -> bool
}.

Record LineDiff := {
  oldStart : Z;
  oldLines : Z;
  newStart : Z;
  newLines : Z
}.

Record DiffInfo := {
  added : Z;
  deleted : Z;
  lineDiffs : list LineDiff
}.

Record BookmarkInfo := {
  active : bool;
  bookmark : string;
  node : string
}.

Module Bookmarks.
(** The value held by the [bookmarks] behaviour subject. *)
Record t := mk { isLoading : bool; bookmarks : list BookmarkInfo }.
End Bookmarks.

Module RevisionFileChanges.
Record t := mk {
  all : list string;
  added : list string;
  deleted : list string;
  copied : list (string * string);
  modified : list string
}.
End RevisionFileChanges.

(** [LegacyProcessMessage], by [kind]. *)
Inductive LegacyProcessMessage :=
| Stdout (data : string)
| Stderr (data : string)
| Exit (exitCode : option Z) (signal : option string)
| Error (error : string).

(** The events of the emitter. *)
Inductive Event :=
| did_destroy
| did_change_status
| did_change_statuses
| did_change_conflict_state.

(** The three status pipelines built by [_observeStatus]. *)
Inductive Channel := Uncommitted | Stack | Head.

(** The subscriptions the constructor adds to [subscriptions]. *)
Inductive Pipeline :=
| StatusPipeline (ch : Channel)
| BookmarksPipeline
| RevisionsPipeline
| ConflictPipeline
| DiffStatsPipeline.

(** Calls made on the [HgService]. *)
Inductive ServiceCall :=
| fetchStatuses_
| fetchStackStatuses_
| fetchHeadStatuses_
| fetchBookmarks_
| getHeadId_
| fetchFileContentAtRevision_ (filePath revision : string)
| fetchFilesChangedAtRevision_ (revision : string)
| commit_ (message : string) (filePaths : list string)
| amend_ (message : option string) (amendMode : string) (filePaths : list string)
| revert_ (filePaths : list string) (toRevision : option string)
| checkout_ (reference : string) (create : bool)
| rebase_ (destination : string) (source : option string)
| pull_ (options : list string)
| createBookmark_ (name : string) (revision : option string)
| deleteBookmark_ (name : string)
| renameBookmark_ (name nextName : string).

(** What the client does to the world outside the shared members, in the
    order in which it does it. *)
Inductive Effect :=
| Emit (e : Event)
| IsFetchingPathStatuses (b : bool)
| StatusChanges (ch : Channel) (statuses : gmap string Z)
| RefreshRevisions
| LogError (msg : string)
| Service (c : ServiceCall).

#[global] Instance Channel_eq_dec : EqDecision Channel.
Proof. solve_decision. Defined.

#[global] Instance Pipeline_eq_dec : EqDecision Pipeline.
Proof. solve_decision. Defined.

(** [_sharedMembers].  [subscriptions_disposed] tells whether
    [subscriptions.dispose()] ran; [repoSubscriptions] is [None] when the
    watchman subscription failed and otherwise tells whether it was disposed;
    [mapObjects] holds the [Map] objects stored in
    [fileContentsAtRevisionIds], by reference; [endedPipelines] lists the
    subscriptions that an error has ended. *)
Record SharedMembers := mkSharedMembers {
  path : string;
  hgStatusCache : gmap string Z;
  hgDiffCache : gmap string DiffInfo;
  hgDiffCacheFilesUpdating : gset string;
  hgDiffCacheFilesToClear : gset string;
  revisionIdToFileChanges : LRU.t string RevisionFileChanges.t;
  fileContentsAtRevisionIds : LRU.t string nat;
  fileContentsAtHead : LRU.t string string;
  currentHeadId : option string;
  bookmarks : Bookmarks.t;
  isInConflict : bool;
  isDestroyed : bool;
  subscriptions_disposed : bool;
  repoSubscriptions : option bool;
  mapObjects : gmap nat (gmap string string);
  endedPipelines : list Pipeline;
  effects : list Effect
}.

(** Assignments to one member. *)

Definition set_hgStatusCache (v : gmap string Z) (s : SharedMembers) : SharedMembers :=
  {| path := path s; hgStatusCache := v; hgDiffCache := hgDiffCache s;
     hgDiffCacheFilesUpdating := hgDiffCacheFilesUpdating s;
     hgDiffCacheFilesToClear := hgDiffCacheFilesToClear s;
     revisionIdToFileChanges := revisionIdToFileChanges s;
     fileContentsAtRevisionIds := fileContentsAtRevisionIds s;
     fileContentsAtHead := fileContentsAtHead s;
     currentHeadId := currentHeadId s; bookmarks := bookmarks s;
     isInConflict := isInConflict s; isDestroyed := isDestroyed s;
     subscriptions_disposed := subscriptions_disposed s;
     repoSubscriptions := repoSubscriptions s; mapObjects := mapObjects s;
     endedPipelines := endedPipelines s; effects := effects s |}.

Definition set_hgDiffCache (v : gmap string DiffInfo) (s : SharedMembers) : SharedMembers :=
  {| path := path s; hgStatusCache := hgStatusCache s; hgDiffCache := v;
     hgDiffCacheFilesUpdating := hgDiffCacheFilesUpdating s;
     hgDiffCacheFilesToClear := hgDiffCacheFilesToClear s;
     revisionIdToFileChanges := revisionIdToFileChanges s;
     fileContentsAtRevisionIds := fileContentsAtRevisionIds s;
     fileContentsAtHead := fileContentsAtHead s;
     currentHeadId := currentHeadId s; bookmarks := bookmarks s;
     isInConflict := isInConflict s; isDestroyed := isDestroyed s;
     subscriptions_disposed := subscriptions_disposed s;
     repoSubscriptions := repoSubscriptions s; mapObjects := mapObjects s;
     endedPipelines := endedPipelines s; effects := effects s |}.

Definition set_hgDiffCacheFilesUpdating (v : gset string) (s : SharedMembers) : SharedMembers :=
  {| path := path s; hgStatusCache := hgStatusCache s;
     hgDiffCache := hgDiffCache s; hgDiffCacheFilesUpdating := v;
     hgDiffCacheFilesToClear := hgDiffCacheFilesToClear s;
     revisionIdToFileChanges := revisionIdToFileChanges s;
     fileContentsAtRevisionIds := fileContentsAtRevisionIds s;
     fileContentsAtHead := fileContentsAtHead s;
     currentHeadId := currentHeadId s; bookmarks := bookmarks s;
     isInConflict := isInConflict s; isDestroyed := isDestroyed s;
     subscriptions_disposed := subscriptions_disposed s;
     repoSubscriptions := repoSubscriptions s; mapObjects := mapObjects s;
     endedPipelines := endedPipelines s; effects := effects s |}.

Definition set_hgDiffCacheFilesToClear (v : gset string) (s : SharedMembers) : SharedMembers :=
  {| path := path s; hgStatusCache := hgStatusCache s;
     hgDiffCache := hgDiffCache s;
     hgDiffCacheFilesUpdating := hgDiffCacheFilesUpdating s;
     hgDiffCacheFilesToClear := v;
     revisionIdToFileChanges := revisionIdToFileChanges s;
     fileContentsAtRevisionIds := fileContentsAtRevisionIds s;
     fileContentsAtHead := fileContentsAtHead s;
     currentHeadId := currentHeadId s; bookmarks := bookmarks s;
     isInConflict := isInConflict s; isDestroyed := isDestroyed s;
     subscriptions_disposed := subscriptions_disposed s;
     repoSubscriptions := repoSubscriptions s; mapObjects := mapObjects s;
     endedPipelines := endedPipelines s; effects := effects s |}.

Definition set_revisionIdToFileChanges (v : LRU.t string RevisionFileChanges.t)
  (s : SharedMembers) : SharedMembers :=
  {| path := path s; hgStatusCache := hgStatusCache s;
     hgDiffCache := hgDiffCache s;
     hgDiffCacheFilesUpdating := hgDiffCacheFilesUpdating s;
     hgDiffCacheFilesToClear := hgDiffCacheFilesToClear s;
     revisionIdToFileChanges := v;
     fileContentsAtRevisionIds := fileContentsAtRevisionIds s;
     fileContentsAtHead := fileContentsAtHead s;
     currentHeadId := currentHeadId s; bookmarks := bookmarks s;
     isInConflict := isInConflict s; isDestroyed := isDestroyed s;
     subscriptions_disposed := subscriptions_disposed s;
     repoSubscriptions := repoSubscriptions s; mapObjects := mapObjects s;
     endedPipelines := endedPipelines s; effects := effects s |}.

Definition set_fileContentsAtRevisionIds (v : LRU.t string nat)
  (s : SharedMembers) : SharedMembers :=
  {| path := path s; hgStatusCache := hgStatusCache s;
     hgDiffCache := hgDiffCache s;
     hgDiffCacheFilesUpdating := hgDiffCacheFilesUpdating s;
     hgDiffCacheFilesToClear := hgDiffCacheFilesToClear s;
     revisionIdToFileChanges := revisionIdToFileChanges s;
     fileContentsAtRevisionIds := v;
     fileContentsAtHead := fileContentsAtHead s;
     currentHeadId := currentHeadId s; bookmarks := bookmarks s;
     isInConflict := isInConflict s; isDestroyed := isDestroyed s;
     subscriptions_disposed := subscriptions_disposed s;
     repoSubscriptions := repoSubscriptions s; mapObjects := mapObjects s;
     endedPipelines := endedPipelines s; effects := effects s |}.

Definition set_fileContentsAtHead (v : LRU.t string string) (s : SharedMembers) : SharedMembers :=
  {| path := path s; hgStatusCache := hgStatusCache s;
     hgDiffCache := hgDiffCache s;
     hgDiffCacheFilesUpdating := hgDiffCacheFilesUpdating s;
     hgDiffCacheFilesToClear := hgDiffCacheFilesToClear s;
     revisionIdToFileChanges := revisionIdToFileChanges s;
     fileContentsAtRevisionIds := fileContentsAtRevisionIds s;
     fileContentsAtHead := v; currentHeadId := currentHeadId s;
     bookmarks := bookmarks s; isInConflict := isInConflict s;
     isDestroyed := isDestroyed s;
     subscriptions_disposed := subscriptions_disposed s;
     repoSubscriptions := repoSubscriptions s; mapObjects := mapObjects s;
     endedPipelines := endedPipelines s; effects := effects s |}.

Definition set_currentHeadId (v : option string) (s : SharedMembers) : SharedMembers :=
  {| path := path s; hgStatusCache := hgStatusCache s;
     hgDiffCache := hgDiffCache s;
     hgDiffCacheFilesUpdating := hgDiffCacheFilesUpdating s;
     hgDiffCacheFilesToClear := hgDiffCacheFilesToClear s;
     revisionIdToFileChanges := revisionIdToFileChanges s;
     fileContentsAtRevisionIds := fileContentsAtRevisionIds s;
     fileContentsAtHead := fileContentsAtHead s; currentHeadId := v;
     bookmarks := bookmarks s; isInConflict := isInConflict s;
     isDestroyed := isDestroyed s;
     subscriptions_disposed := subscriptions_disposed s;
     repoSubscriptions := repoSubscriptions s; mapObjects := mapObjects s;
     endedPipelines := endedPipelines s; effects := effects s |}.

Definition set_bookmarks (v : Bookmarks.t) (s : SharedMembers) : SharedMembers :=
  {| path := path s; hgStatusCache := hgStatusCache s;
     hgDiffCache := hgDiffCache s;
     hgDiffCacheFilesUpdating := hgDiffCacheFilesUpdating s;
     hgDiffCacheFilesToClear := hgDiffCacheFilesToClear s;
     revisionIdToFileChanges := revisionIdToFileChanges s;
     fileContentsAtRevisionIds := fileContentsAtRevisionIds s;
     fileContentsAtHead := fileContentsAtHead s;
     currentHeadId := currentHeadId s; bookmarks := v;
     isInConflict := isInConflict s; isDestroyed := isDestroyed s;
     subscriptions_disposed := subscriptions_disposed s;
     repoSubscriptions := repoSubscriptions s; mapObjects := mapObjects s;
     endedPipelines := endedPipelines s; effects := effects s |}.

Definition set_isInConflict (v : bool) (s : SharedMembers) : SharedMembers :=
  {| path := path s; hgStatusCache := hgStatusCache s;
     hgDiffCache := hgDiffCache s;
     hgDiffCacheFilesUpdating := hgDiffCacheFilesUpdating s;
     hgDiffCacheFilesToClear := hgDiffCacheFilesToClear s;
     revisionIdToFileChanges := revisionIdToFileChanges s;
     fileContentsAtRevisionIds := fileContentsAtRevisionIds s;
     fileContentsAtHead := fileContentsAtHead s;
     currentHeadId := currentHeadId s; bookmarks := bookmarks s;
     isInConflict := v; isDestroyed := isDestroyed s;
     subscriptions_disposed := subscriptions_disposed s;
     repoSubscriptions := repoSubscriptions s; mapObjects := mapObjects s;
     endedPipelines := endedPipelines s; effects := effects s |}.

Definition set_isDestroyed (v : bool) (s : SharedMembers) : SharedMembers :=
  {| path := path s; hgStatusCache := hgStatusCache s;
     hgDiffCache := hgDiffCache s;
     hgDiffCacheFilesUpdating := hgDiffCacheFilesUpdating s;
     hgDiffCacheFilesToClear := hgDiffCacheFilesToClear s;
     revisionIdToFileChanges := revisionIdToFileChanges s;
     fileContentsAtRevisionIds := fileContentsAtRevisionIds s;
     fileContentsAtHead := fileContentsAtHead s;
     currentHeadId := currentHeadId s; bookmarks := bookmarks s;
     isInConflict := isInConflict s; isDestroyed := v;
     subscriptions_disposed := subscriptions_disposed s;
     repoSubscriptions := repoSubscriptions s; mapObjects := mapObjects s;
     endedPipelines := endedPipelines s; effects := effects s |}.

Definition set_subscriptions_disposed (v : bool) (s : SharedMembers) : SharedMembers :=
  {| path := path s; hgStatusCache := hgStatusCache s;
     hgDiffCache := hgDiffCache s;
     hgDiffCacheFilesUpdating := hgDiffCacheFilesUpdating s;
     hgDiffCacheFilesToClear := hgDiffCacheFilesToClear s;
     revisionIdToFileChanges := revisionIdToFileChanges s;
     fileContentsAtRevisionIds := fileContentsAtRevisionIds s;
     fileContentsAtHead := fileContentsAtHead s;
     currentHeadId := currentHeadId s; bookmarks := bookmarks s;
     isInConflict := isInConflict s; isDestroyed := isDestroyed s;
     subscriptions_disposed := v; repoSubscriptions := repoSubscriptions s;
     mapObjects := mapObjects s; endedPipelines := endedPipelines s;
     effects := effects s |}.

Definition set_repoSubscriptions (v : option bool) (s : SharedMembers) : SharedMembers :=
  {| path := path s; hgStatusCache := hgStatusCache s;
     hgDiffCache := hgDiffCache s;
     hgDiffCacheFilesUpdating := hgDiffCacheFilesUpdating s;
     hgDiffCacheFilesToClear := hgDiffCacheFilesToClear s;
     revisionIdToFileChanges := revisionIdToFileChanges s;
     fileContentsAtRevisionIds := fileContentsAtRevisionIds s;
     fileContentsAtHead := fileContentsAtHead s;
     currentHeadId := currentHeadId s; bookmarks := bookmarks s;
     isInConflict := isInConflict s; isDestroyed := isDestroyed s;
     subscriptions_disposed := subscriptions_disposed s;
     repoSubscriptions := v; mapObjects := mapObjects s;
     endedPipelines := endedPipelines s; effects := effects s |}.

Definition set_mapObjects (v : gmap nat (gmap string string)) (s : SharedMembers) : SharedMembers :=
  {| path := path s; hgStatusCache := hgStatusCache s;
     hgDiffCache := hgDiffCache s;
     hgDiffCacheFilesUpdating := hgDiffCacheFilesUpdating s;
     hgDiffCacheFilesToClear := hgDiffCacheFilesToClear s;
     revisionIdToFileChanges := revisionIdToFileChanges s;
     fileContentsAtRevisionIds := fileContentsAtRevisionIds s;
     fileContentsAtHead := fileContentsAtHead s;
     currentHeadId := currentHeadId s; bookmarks := bookmarks s;
     isInConflict := isInConflict s; isDestroyed := isDestroyed s;
     subscriptions_disposed := subscriptions_disposed s;
     repoSubscriptions := repoSubscriptions s; mapObjects := v;
     endedPipelines := endedPipelines s; effects := effects s |}.

Definition set_endedPipelines (v : list Pipeline) (s : SharedMembers) : SharedMembers :=
  {| path := path s; hgStatusCache := hgStatusCache s;
     hgDiffCache := hgDiffCache s;
     hgDiffCacheFilesUpdating := hgDiffCacheFilesUpdating s;
     hgDiffCacheFilesToClear := hgDiffCacheFilesToClear s;
     revisionIdToFileChanges := revisionIdToFileChanges s;
     fileContentsAtRevisionIds := fileContentsAtRevisionIds s;
     fileContentsAtHead := fileContentsAtHead s;
     currentHeadId := currentHeadId s; bookmarks := bookmarks s;
     isInConflict := isInConflict s; isDestroyed := isDestroyed s;
     subscriptions_disposed := subscriptions_disposed s;
     repoSubscriptions := repoSubscriptions s; mapObjects := mapObjects s;
     endedPipelines := v; effects := effects s |}.

Definition set_effects (v : list Effect) (s : SharedMembers) : SharedMembers :=
  {| path := path s; hgStatusCache := hgStatusCache s;
     hgDiffCache := hgDiffCache s;
     hgDiffCacheFilesUpdating := hgDiffCacheFilesUpdating s;
     hgDiffCacheFilesToClear := hgDiffCacheFilesToClear s;
     revisionIdToFileChanges := revisionIdToFileChanges s;
     fileContentsAtRevisionIds := fileContentsAtRevisionIds s;
     fileContentsAtHead := fileContentsAtHead s;
     currentHeadId := currentHeadId s; bookmarks := bookmarks s;
     isInConflict := isInConflict s; isDestroyed := isDestroyed s;
     subscriptions_disposed := subscriptions_disposed s;
     repoSubscriptions := repoSubscriptions s; mapObjects := mapObjects s;
     endedPipelines := endedPipelines s; effects := v |}.

(** ** The backend *)

Module HgService.
(** What the [HgService], and the two helpers that read the working copy,
    answer at the time of one call.  A method returning an observable
    answers with a run; a method returning a promise with a promise run;
    [fetchBookmarks i] is the promise of the [i]-th call made while one
    trigger is handled.  [parseDiff diff] stands for
    [parseHgDiffUnifiedOutput(diff.split('--- ')[1])]. *)
Record t := mk {
  fetchStatuses : Rx.Run (gmap string string);
  fetchStackStatuses : Rx.Run (gmap string string);
  fetchHeadStatuses : Rx.Run (gmap string string);
  fetchBookmarks : nat -> Rx.PromiseRun (list BookmarkInfo);
  getHeadId : Rx.Run (option string);
  fetchFileContentAtRevision : string -> string -> Rx.Run string;
  fetchFilesChangedAtRevision : string -> Rx.Run RevisionFileChanges.t;
  gitDiffContentAgainstFile : string -> string -> Rx.Run string;
  parseDiff : string -> DiffInfo;
  commit : string -> list string -> Rx.Run LegacyProcessMessage;
  amend : option string -> string -> list string -> Rx.Run LegacyProcessMessage;
  revert : list string -> option string -> Rx.PromiseRun unit;
  checkout : string -> bool -> Rx.Run LegacyProcessMessage;
  rebase : string -> option string -> Rx.Run LegacyProcessMessage;
  pull : list string -> Rx.Run LegacyProcessMessage;
  createBookmark : string -> option string -> Rx.PromiseRun unit;
  deleteBookmark : string -> Rx.PromiseRun unit;
  renameBookmark : string -> string -> Rx.PromiseRun unit
}.
End HgService.

(** ** Strings *)

(** [str.indexOf(searchString)] *)
Fixpoint indexOf_from (str searchString : string) (i : Z) : Z :=
  if String.prefix searchString str then i
  else match str with
       | EmptyString => -1
       | String _ rest => indexOf_from rest searchString (i + 1)
       end.

Definition indexOf (str searchString : string) : Z :=
  indexOf_from str searchString 0.

(** [!filePath] for a [?string]: null, undefined and the empty string. *)
Definition not_string (filePath : option string) : bool :=
  match filePath with
  | None => true
  | Some p => bool_decide (p = "")
  end.

(** [!status] for a [?number]: undefined and zero. *)
Definition not_number (status : option Z) : bool :=
  match status with
  | None => true
  | Some n => n =? 0
  end.

(** [new Map(entries)]: a later entry for a key replaces an earlier one. *)
Definition Map_of {V} (entries : list (string * V)) : gmap string V :=
  foldl (fun m e => <[e.1 := e.2]> m) ∅ entries.

(** [array.map(f)] for an [f] that changes the state. *)
Fixpoint map_with {St A B} (f : A -> St -> B * St) (l : list A) (s : St)
  : list B * St :=
  match l with
  | [] => ([], s)
  | a :: l' =>
      let '(b, s1) := f a s in
      let '(bs, s2) := map_with f l' s1 in
      (b :: bs, s2)
  end.

(** [o.distinctUntilChanged(same)] on the values of a run: the first value
    passes, and then every value that is not the same as the last one that
    passed. *)
Fixpoint distinctUntilChanged_after {A} (same : A -> A -> bool) (prev : A)
  (l : list A) : list A :=
  match l with
  | [] => []
  | x :: l' =>
      if same prev x then distinctUntilChanged_after same prev l'
      else x :: distinctUntilChanged_after same x l'
  end.

Definition distinctUntilChanged_with {A} (same : A -> A -> bool) (l : list A)
  : list A :=
  match l with
  | [] => []
  | x :: l' => x :: distinctUntilChanged_after same x l'
  end.

(** ** The client *)

Definition FETCH_BOOKMARKS_TIMEOUT : Z := 15 * 1000.

Section Client.

Variable StatusCodeNumber : StatusCodeNumberTable.
(** [StatusCodeIdToNumber] of [hg-constants]. *)
Variable StatusCodeIdToNumber : string -> Z.
Variable workingDirectory : Directory.

Abbreviation Observable := (Rx.Observable SharedMembers).

Definition effect (e : Effect) (s : SharedMembers) : SharedMembers :=
  set_effects (effects s ++ [e]) s.

(** [emitter.emit(e)] *)
Definition emit (e : Event) : SharedMembers -> SharedMembers :=
  effect (Emit e).

(** A call of a service method answering with the run [answer]. *)
Definition service {A} (c : ServiceCall) (answer : Rx.Run A) : Observable A :=
  fun s => (answer, effect (Service c) s).

(** A call of a service method answering with the promise [answer]. *)
Definition service_promise {A} (c : ServiceCall) (answer : Rx.PromiseRun A)
  : SharedMembers -> Rx.PromiseRun A * SharedMembers :=
  fun s => (answer, effect (Service c) s).

(** The state the constructor leaves; [subscribed] tells whether
    [createRepositorySubscriptions] succeeded. *)
Definition constructor (repoPath : string) (subscribed : bool) : SharedMembers :=
  {| path := repoPath;
     hgStatusCache := ∅;
     hgDiffCache := ∅;
     hgDiffCacheFilesUpdating := ∅;
     hgDiffCacheFilesToClear := ∅;
     revisionIdToFileChanges := LRU.new 100;
     fileContentsAtRevisionIds := LRU.new 20;
     fileContentsAtHead := LRU.new 30;
     currentHeadId := None;
     bookmarks := Bookmarks.mk true [];
     isInConflict := false;
     isDestroyed := false;
     subscriptions_disposed := false;
     repoSubscriptions := if subscribed then Some false else None;
     mapObjects := ∅;
     endedPipelines := [];
     effects := [] |}.

Definition destroy (s : SharedMembers) : SharedMembers :=
  if isDestroyed s then s
  else
    let s := set_isDestroyed true s in
    let s := emit did_destroy s in
    let s := set_subscriptions_disposed true s in
    let s := set_revisionIdToFileChanges (LRU.reset (revisionIdToFileChanges s)) s in
    let s := set_fileContentsAtRevisionIds (LRU.reset (fileContentsAtRevisionIds s)) s in
    set_repoSubscriptions (const true <$> repoSubscriptions s) s.

Definition _conflictStateChanged (inConflict : bool) (s : SharedMembers)
  : SharedMembers :=
  emit did_change_conflict_state (set_isInConflict inConflict s).

Definition getPath_ (s : SharedMembers) : string := path s.

(** *** Reading status *)

Definition isStatusModified (status : option Z) : bool :=
  bool_decide (status = Some (MODIFIED StatusCodeNumber)).

Definition isStatusDeleted (status : option Z) : bool :=
  bool_decide (status = Some (MISSING StatusCodeNumber))
  || bool_decide (status = Some (REMOVED StatusCodeNumber)).

Definition isStatusNew (status : option Z) : bool :=
  bool_decide (status = Some (ADDED StatusCodeNumber))
  || bool_decide (status = Some (UNTRACKED StatusCodeNumber)).

Definition isStatusAdded (status : option Z) : bool :=
  bool_decide (status = Some (ADDED StatusCodeNumber)).

Definition isStatusUntracked (status : option Z) : bool :=
  bool_decide (status = Some (UNTRACKED StatusCodeNumber)).

Definition isStatusIgnored (status : option Z) : bool :=
  bool_decide (status = Some (IGNORED StatusCodeNumber)).

(** [hgStatusCache.get(filePath)] for a [filePath] that is not null. *)
Definition hgStatusCache_get (filePath : option string) (s : SharedMembers)
  : option Z :=
  filePath ≫= fun p => hgStatusCache s !! p.

Definition isPathModified (filePath : option string) (s : SharedMembers) : bool :=
  if not_string filePath then false
  else
    let cachedPathStatus := hgStatusCache_get filePath s in
    if not_number cachedPathStatus then false
    else isStatusModified cachedPathStatus.

Definition isPathNew (filePath : option string) (s : SharedMembers) : bool :=
  if not_string filePath then false
  else
    let cachedPathStatus := hgStatusCache_get filePath s in
    if not_number cachedPathStatus then false
    else isStatusNew cachedPathStatus.

Definition isPathAdded (filePath : option string) (s : SharedMembers) : bool :=
  if not_string filePath then false
  else
    let cachedPathStatus := hgStatusCache_get filePath s in
    if not_number cachedPathStatus then false
    else isStatusAdded cachedPathStatus.

Definition isPathUntracked (filePath : option string) (s : SharedMembers) : bool :=
  if not_string filePath then false
  else
    let cachedPathStatus := hgStatusCache_get filePath s in
    if not_number cachedPathStatus then false
    else isStatusUntracked cachedPathStatus.

Definition _isPathWithinHgRepo (filePath : string) (s : SharedMembers) : bool :=
  bool_decide (filePath = getPath_ s)
  || (indexOf filePath (getPath_ s +:+ "/") =? 0).

Definition isPathIgnored (filePath : option string) (s : SharedMembers) : bool :=
  if not_string filePath then false
  else
    let cachedPathStatus := hgStatusCache_get filePath s in
    if not_number cachedPathStatus
    then _isPathWithinHgRepo (default "" filePath) s
    else isStatusIgnored cachedPathStatus.

Definition isPathRelevantToRepository (filePath : string) : bool :=
  contains workingDirectory filePath
  || bool_decide (getPath workingDirectory = filePath).

Definition getCachedPathStatus (filePath : option string) (s : SharedMembers) : Z :=
  if not_string filePath then CLEAN StatusCodeNumber
  else
    let cachedStatus := hgStatusCache_get filePath s in
    if negb (not_number cachedStatus) then default 0 cachedStatus
    else CLEAN StatusCodeNumber.

Definition getPathStatus (filePath : string) (s : SharedMembers) : Z :=
  getCachedPathStatus (Some filePath) s.

(** *** Retrieving diffs *)

Definition getDiffStats (filePath : option string) (s : SharedMembers) : Z * Z :=
  let cleanStats := (0, 0) in
  if not_string filePath then cleanStats
  else
    match filePath ≫= fun p => hgDiffCache s !! p with
    | Some cachedData => (added cachedData, deleted cachedData)
    | None => cleanStats
    end.

Definition getLineDiffs (filePath : option string) (s : SharedMembers)
  : list LineDiff :=
  if not_string filePath then []
  else
    match filePath ≫= fun p => hgDiffCache s !! p with
    | Some diffInfo => lineDiffs diffInfo
    | None => []
    end.

(** *** Operations that call the backend *)

Section Calls.

Variable svc : HgService.t.

Definition _getCurrentHeadId : Observable (option string) :=
  fun s =>
    match currentHeadId s with
    | Some headId => Rx.of_ (Some headId) s
    | None =>
        Rx.do_ (fun headId => set_currentHeadId headId)
               (service getHeadId_ (HgService.getHeadId svc)) s
    end.

(** One element of [fileContents] in [_getFileDiffs]: the cache is read when
    the observable is built, the backend is asked when it is subscribed. *)
Definition fileContent (revision filePath : string) (s : SharedMembers)
  : Observable (string * string) * SharedMembers :=
  let '(cachedContent, cache) := LRU.get filePath (fileContentsAtHead s) in
  let contentObservable : Observable string :=
    match cachedContent with
    | None =>
        Rx.do_ (fun contents s =>
                  set_fileContentsAtHead
                    (LRU.set filePath contents (fileContentsAtHead s)) s)
               (service (fetchFileContentAtRevision_ filePath revision)
                        (HgService.fetchFileContentAtRevision svc filePath revision))
    | Some content => Rx.of_ content
    end in
  (Rx.map (fun diff => (filePath, diff))
     (Rx.switchMap
        (fun content => Rx.from (HgService.gitDiffContentAgainstFile svc content filePath))
        contentObservable),
   set_fileContentsAtHead cache s).

Definition _getFileDiffs (pathsToFetch : list string) (revision : string)
  : Observable (gmap string DiffInfo) :=
  fun s =>
    let '(fileContents, s1) := map_with (fileContent revision) pathsToFetch s in
    Rx.map Map_of
      (Rx.toArray
         (Rx.map (fun e : string * string => (e.1, HgService.parseDiff svc e.2))
                 (Rx.merge fileContents))) s1.

(** The filter at the head of [_updateDiffInfo]; it adds the paths it keeps
    to [hgDiffCacheFilesUpdating]. *)
Fixpoint pathsToFetch_of (filePaths : list string) (s : SharedMembers)
  : list string * SharedMembers :=
  match filePaths with
  | [] => ([], s)
  | aPath :: rest =>
      if negb (isPathRelevantToRepository aPath) then pathsToFetch_of rest s
      else if bool_decide (aPath ∈ hgDiffCacheFilesUpdating s)
      then pathsToFetch_of rest s
      else
        let s1 := set_hgDiffCacheFilesUpdating
                    ({[aPath]} ∪ hgDiffCacheFilesUpdating s) s in
        let '(kept, s2) := pathsToFetch_of rest s1 in
        (aPath :: kept, s2)
  end.

(** The callback of [.do] in [_updateDiffInfo]. *)
Definition _updateDiffInfo_do (pathsToFetch : list string)
  (pathsToDiffInfo : gmap string DiffInfo) (s : SharedMembers) : SharedMembers :=
  let s := set_hgDiffCache (pathsToDiffInfo ∪ hgDiffCache s) s in
  let s := set_hgDiffCache
             (foldr delete (hgDiffCache s) (elements (hgDiffCacheFilesToClear s))) s in
  let s := set_hgDiffCacheFilesToClear ∅ s in
  let s := set_hgDiffCacheFilesUpdating
             (foldl (fun updating pathToFetch => updating ∖ {[pathToFetch]})
                    (hgDiffCacheFilesUpdating s) pathsToFetch) s in
  emit did_change_statuses s.

Definition _updateDiffInfo (filePaths : list string)
  : Observable (gmap string DiffInfo) :=
  fun s =>
    let '(pathsToFetch, s1) := pathsToFetch_of filePaths s in
    if bool_decide (length pathsToFetch = 0%nat) then Rx.of_ ∅ s1
    else
      Rx.switchMap
        (fun currentHeadId : option string =>
           match currentHeadId with
           | None => Rx.of_ ∅
           | Some headId =>
               Rx.do_ (_updateDiffInfo_do pathsToFetch)
                      (_getFileDiffs pathsToFetch headId)
           end)
        _getCurrentHeadId s1.

(** *** Repository state at specific revisions *)

Definition fetchFileContentAtRevision (filePath revision : string)
  : Observable string :=
  fun s =>
    let '(found, cache) := LRU.get revision (fileContentsAtRevisionIds s) in
    let s := set_fileContentsAtRevisionIds cache s in
    let '(fileContentsAtRevision, s) :=
      match found with
      | Some object => (object, s)
      | None =>
          let object := fresh (dom (mapObjects s)) in
          let s := set_mapObjects (<[object := ∅]> (mapObjects s)) s in
          (object,
           set_fileContentsAtRevisionIds
             (LRU.set revision object (fileContentsAtRevisionIds s)) s)
      end in
    let committedContents :=
      mapObjects s !! fileContentsAtRevision ≫= fun m => m !! filePath in
    match committedContents with
    | Some contents => Rx.of_ contents s
    | None =>
        Rx.do_ (fun contents s =>
                  set_mapObjects
                    (alter <[filePath := contents]> fileContentsAtRevision
                           (mapObjects s)) s)
               (service (fetchFileContentAtRevision_ filePath revision)
                        (HgService.fetchFileContentAtRevision svc filePath revision)) s
    end.

Definition fetchFilesChangedAtRevision (revision : string)
  : Observable RevisionFileChanges.t :=
  fun s =>
    let '(changes, cache) := LRU.get revision (revisionIdToFileChanges s) in
    let s := set_revisionIdToFileChanges cache s in
    match changes with
    | Some changes => Rx.of_ changes s
    | None =>
        Rx.do_ (fun fetchedChanges s =>
                  set_revisionIdToFileChanges
                    (LRU.set revision fetchedChanges (revisionIdToFileChanges s)) s)
               (service (fetchFilesChangedAtRevision_ revision)
                        (HgService.fetchFilesChangedAtRevision svc revision)) s
    end.

(** *** Mutating operations *)

Definition _clearClientCache (filePaths : list string) (s : SharedMembers)
  : SharedMembers :=
  let s :=
    if bool_decide (length filePaths = 0%nat) then
      let s := set_hgDiffCache ∅ s in
      let s := set_hgStatusCache ∅ s in
      set_fileContentsAtHead (LRU.reset (fileContentsAtHead s)) s
    else
      foldl (fun s filePath =>
               let s := set_hgDiffCache (delete filePath (hgDiffCache s)) s in
               set_hgStatusCache (delete filePath (hgStatusCache s)) s)
            s filePaths in
  emit did_change_statuses s.

Definition _clearOnSuccessExit (message : LegacyProcessMessage)
  (filePaths : list string) (s : SharedMembers) : SharedMembers :=
  match message with
  | Exit (Some 0) _ => _clearClientCache filePaths s
  | _ => s
  end.

Definition commit (message : string) (filePaths : list string)
  : Observable LegacyProcessMessage :=
  Rx.do_ (fun processMessage => _clearOnSuccessExit processMessage filePaths)
         (service (commit_ message filePaths)
                  (HgService.commit svc message filePaths)).

Definition amend (message : option string) (amendMode : string)
  (filePaths : list string) : Observable LegacyProcessMessage :=
  Rx.do_ (fun processMessage => _clearOnSuccessExit processMessage filePaths)
         (service (amend_ message amendMode filePaths)
                  (HgService.amend svc message amendMode filePaths)).

Definition revert (filePaths : list string) (toRevision : option string)
  : SharedMembers -> Rx.PromiseRun unit * SharedMembers :=
  service_promise (revert_ filePaths toRevision)
                  (HgService.revert svc filePaths toRevision).

Definition checkoutReference (reference : string) (create : bool)
  : Observable LegacyProcessMessage :=
  service (checkout_ reference create) (HgService.checkout svc reference create).

Definition rebase (destination : string) (source : option string)
  : Observable LegacyProcessMessage :=
  service (rebase_ destination source) (HgService.rebase svc destination source).

Definition pull (options : list string) : Observable LegacyProcessMessage :=
  service (pull_ options) (HgService.pull svc options).

Definition createBookmark (name : string) (revision : option string)
  : SharedMembers -> Rx.PromiseRun unit * SharedMembers :=
  service_promise (createBookmark_ name revision)
                  (HgService.createBookmark svc name revision).

Definition deleteBookmark (name : string)
  : SharedMembers -> Rx.PromiseRun unit * SharedMembers :=
  service_promise (deleteBookmark_ name) (HgService.deleteBookmark svc name).

Definition renameBookmark (name nextName : string)
  : SharedMembers -> Rx.PromiseRun unit * SharedMembers :=
  service_promise (renameBookmark_ name nextName)
                  (HgService.renameBookmark svc name nextName).

(** *** The pipelines of the constructor *)

(** [statusChanges] of [_observeStatus]. *)
Definition _observeStatus (triggers : Observable unit)
  (fetchStatuses : Observable (gmap string string))
  : Observable (gmap string Z) :=
  Rx.map (fun uriToStatusIds : gmap string string =>
            StatusCodeIdToNumber <$> uriToStatusIds)
    (Rx.switchMap
       (fun _ s =>
          let s := effect (IsFetchingPathStatuses true) s in
          Rx.finally (effect (IsFetchingPathStatuses false))
            (Rx.catch
               (fun s => Rx.empty (effect (LogError "HgService cannot fetch statuses") s))
               fetchStatuses) s)
       triggers).

(** [isCalculatingChanges] of [_observeStatus], from what [statusChanges]
    emitted for each trigger in turn: the merged stream has true for a
    trigger and then false for every value of [statusChanges] that the
    trigger brought, and one [distinctUntilChanged] runs over the whole of
    it. *)
Definition isCalculatingChanges (cycles : list (list (gmap string Z)))
  : list bool :=
  distinctUntilChanged_with (fun a b : bool => bool_decide (a = b))
    (cycles ≫= fun statuses => true :: ((fun _ => false) <$> statuses)).

Definition hgStatusChanges (ch : Channel) (triggers : Observable unit)
  : Observable (gmap string Z) :=
  match ch with
  | Uncommitted =>
      _observeStatus triggers (service fetchStatuses_ (HgService.fetchStatuses svc))
  | Stack =>
      _observeStatus triggers
        (service fetchStackStatuses_ (HgService.fetchStackStatuses svc))
  | Head =>
      _observeStatus triggers
        (service fetchHeadStatuses_ (HgService.fetchHeadStatuses svc))
  end.

(** What a value of [statusChanges] does: it reaches the subscribers, and
    for the uncommitted channel the client's own [statusChangesSubscription],
    unless that was disposed. *)
Definition statusChanges_next (ch : Channel) (statuses : gmap string Z)
  (s : SharedMembers) : SharedMembers :=
  let s := effect (StatusChanges ch statuses) s in
  match ch with
  | Uncommitted =>
      if subscriptions_disposed s then s
      else emit did_change_statuses (set_hgStatusCache statuses s)
  | _ => s
  end.

Definition bookmarksUpdates (triggers : Observable unit)
  : Observable (list BookmarkInfo) :=
  Rx.switchMap
    (fun _ =>
       Rx.catch
         (fun s => Rx.empty (effect (LogError "failed to fetch bookmarks info:") s))
         (Rx.retry 2
            (fun i =>
               service fetchBookmarks_
                 (Rx.fromPromise_timeout FETCH_BOOKMARKS_TIMEOUT
                    (HgService.fetchBookmarks svc i)))
            0))
    triggers.

Definition bookmarks_next (value : list BookmarkInfo) (s : SharedMembers)
  : SharedMembers :=
  set_bookmarks (Bookmarks.mk false value) s.

(** The subscriber of [shouldRevisionsUpdate]. *)
Definition shouldRevisionsUpdate_next (s : SharedMembers) : SharedMembers :=
  let s := effect RefreshRevisions s in
  let s := set_fileContentsAtHead (LRU.reset (fileContentsAtHead s)) s in
  set_hgDiffCache ∅ s.

(** The [switchMap] callback of [diffStatsSubscription] for a disabled
    feature. *)
Definition diffStats_disabled (s : SharedMembers) : SharedMembers :=
  emit did_change_statuses (set_hgDiffCache ∅ s).

(** [o.subscribe(next)] without an error callback: an error ends the
    subscription [p] for good. *)
Definition run_subscription {A} (p : Pipeline) (next : A -> SharedMembers -> SharedMembers)
  (o : Observable A) (s : SharedMembers) : SharedMembers :=
  if bool_decide (p ∈ endedPipelines s) then s
  else
    let '(r, s1) := Rx.do_ next o s in
    match Rx.ending r with
    | Rx.Completed => s1
    | Rx.Errored => set_endedPipelines (p :: endedPipelines s1) s1
    end.

(** A subscription held by [subscriptions]: disposing stops it. *)
Definition subscribe {A} (p : Pipeline) (next : A -> SharedMembers -> SharedMembers)
  (o : Observable A) (s : SharedMembers) : SharedMembers :=
  if subscriptions_disposed s then s else run_subscription p next o s.

(** ** The client as a transition system *)

Inductive Operation :=
| Commit (message : string) (filePaths : list string)
| Amend (message : option string) (amendMode : string) (filePaths : list string)
| Revert (filePaths : list string) (toRevision : option string)
| CheckoutReference (reference : string) (create : bool)
| Rebase (destination : string) (source : option string)
| Pull (options : list string)
| CreateBookmark (name : string) (revision : option string)
| DeleteBookmark (name : string)
| RenameBookmark (name nextName : string).

Definition exited_with_success (r : Rx.Run LegacyProcessMessage) : bool :=
  existsb (fun m => match m with Exit (Some 0) _ => true | _ => false end)
          (Rx.emits r).

Definition fulfilled {A} (p : Rx.PromiseRun A) : bool :=
  match p with
  | Rx.Fulfills _ _ => true
  | _ => false
  end.

(** The caller invokes an operation and waits for its result; the boolean
    tells whether the operation succeeded. *)
Definition invoke (op : Operation) (s : SharedMembers) : bool * SharedMembers :=
  match op with
  | Commit message filePaths =>
      let '(r, s1) := commit message filePaths s in (exited_with_success r, s1)
  | Amend message amendMode filePaths =>
      let '(r, s1) := amend message amendMode filePaths s in
      (exited_with_success r, s1)
  | Revert filePaths toRevision =>
      let '(p, s1) := revert filePaths toRevision s in (fulfilled p, s1)
  | CheckoutReference reference create =>
      let '(r, s1) := checkoutReference reference create s in
      (exited_with_success r, s1)
  | Rebase destination source =>
      let '(r, s1) := rebase destination source s in (exited_with_success r, s1)
  | Pull options =>
      let '(r, s1) := pull options s in (exited_with_success r, s1)
  | CreateBookmark name revision =>
      let '(p, s1) := createBookmark name revision s in (fulfilled p, s1)
  | DeleteBookmark name =>
      let '(p, s1) := deleteBookmark name s in (fulfilled p, s1)
  | RenameBookmark name nextName =>
      let '(p, s1) := renameBookmark name nextName s in (fulfilled p, s1)
  end.

(** The paths an operation is given; none when it takes no paths. *)
Definition filePaths_of (op : Operation) : list string :=
  match op with
  | Commit _ filePaths | Amend _ _ filePaths | Revert filePaths _ => filePaths
  | _ => []
  end.

(** What can happen to a client: a debounced trigger reaches one of its
    pipelines, or one of its methods is called. *)
Inductive Action :=
| StatusTrigger (ch : Channel)
| BookmarksTrigger
| RevisionsTrigger
| ConflictStateChange (inConflict : bool)
| DiffStatsDisabled
| DiffStatsFile (filePath : string)
| DiffStatsFileClosed (filePath : string)
| FetchFileContentAtRevision (filePath revision : string)
| FetchFilesChangedAtRevision (revision : string)
| Invoke (op : Operation)
| Destroy.

Definition step (a : Action) (s : SharedMembers) : SharedMembers :=
  match a with
  | StatusTrigger ch =>
      run_subscription (StatusPipeline ch) (statusChanges_next ch)
        (hgStatusChanges ch (Rx.of_ tt)) s
  | BookmarksTrigger =>
      subscribe BookmarksPipeline bookmarks_next (bookmarksUpdates (Rx.of_ tt)) s
  | RevisionsTrigger =>
      subscribe RevisionsPipeline (fun _ => shouldRevisionsUpdate_next) (Rx.of_ tt) s
  | ConflictStateChange inConflict =>
      subscribe ConflictPipeline _conflictStateChanged (Rx.of_ inConflict) s
  | DiffStatsDisabled =>
      subscribe DiffStatsPipeline (fun (_ : string) s => s)
        (fun s => Rx.empty (diffStats_disabled s)) s
  | DiffStatsFile filePath =>
      subscribe DiffStatsPipeline (fun _ s => s) (_updateDiffInfo [filePath]) s
  | DiffStatsFileClosed filePath =>
      if subscriptions_disposed s then s
      else set_hgDiffCacheFilesToClear
             ({[filePath]} ∪ hgDiffCacheFilesToClear s) s
  | FetchFileContentAtRevision filePath revision =>
      (fetchFileContentAtRevision filePath revision s).2
  | FetchFilesChangedAtRevision revision =>
      (fetchFilesChangedAtRevision revision s).2
  | Invoke op => (invoke op s).2
  | Destroy => destroy s
  end.

End Calls.

(** A run of the client: every action comes with what the backend answers
    while it is handled. *)
Definition run (actions : list (HgService.t * Action)) (s : SharedMembers)
  : SharedMembers :=
  foldl (fun s a => step a.1 a.2 s) s actions.

End Client.

(** ** Fixtures for evaluating the client *)

(** A table of status codes, its codes pairwise distinct and not zero. *)
Definition sample_codes : StatusCodeNumberTable :=
  {| ADDED := 1; CLEAN := 2; IGNORED := 3; MODIFIED := 4;
     MISSING := 5; REMOVED := 6; UNTRACKED := 7 |}.

Definition sample_ids (id : string) : Z :=
  if bool_decide (id = "A") then 1
  else if bool_decide (id = "C") then 2
  else if bool_decide (id = "I") then 3
  else if bool_decide (id = "M") then 4
  else if bool_decide (id = "!") then 5
  else if bool_decide (id = "R") then 6
  else if bool_decide (id = "?") then 7
  else 0.

(** A working directory [/repo] containing the paths below it. *)
Definition sample_directory : Directory :=
  {| getPath := "/repo"; contains := String.prefix "/repo/" |}.

(** A backend on which every call fails. *)
Definition failing_service : HgService.t :=
  {| HgService.fetchStatuses := Rx.mkRun [] Rx.Errored;
     HgService.fetchStackStatuses := Rx.mkRun [] Rx.Errored;
     HgService.fetchHeadStatuses := Rx.mkRun [] Rx.Errored;
     HgService.fetchBookmarks := fun _ => Rx.Rejects 10;
     HgService.getHeadId := Rx.mkRun [] Rx.Errored;
     HgService.fetchFileContentAtRevision := fun _ _ => Rx.mkRun [] Rx.Errored;
     HgService.fetchFilesChangedAtRevision := fun _ => Rx.mkRun [] Rx.Errored;
     HgService.gitDiffContentAgainstFile := fun _ _ => Rx.mkRun [] Rx.Errored;
     HgService.parseDiff := fun _ => {| added := 0; deleted := 0; lineDiffs := [] |};
     HgService.commit := fun _ _ => Rx.mkRun [] Rx.Errored;
     HgService.amend := fun _ _ _ => Rx.mkRun [] Rx.Errored;
     HgService.revert := fun _ _ => Rx.Rejects 10;
     HgService.checkout := fun _ _ => Rx.mkRun [] Rx.Errored;
     HgService.rebase := fun _ _ => Rx.mkRun [] Rx.Errored;
     HgService.pull := fun _ => Rx.mkRun [] Rx.Errored;
     HgService.createBookmark := fun _ _ => Rx.Rejects 10;
     HgService.deleteBookmark := fun _ => Rx.Rejects 10;
     HgService.renameBookmark := fun _ _ => Rx.Rejects 10 |}.

(** A backend on which every call succeeds: the head is revision [head],
    every file has the content [old] there, every diff has one added line,
    every process exits with code 0. *)
Definition working_service (head : string) : HgService.t :=
  {| HgService.fetchStatuses :=
       Rx.mkRun [{["/repo/a.txt" := "A"; "/repo/b.txt" := "M"]}] Rx.Completed;
     HgService.fetchStackStatuses := Rx.mkRun [∅] Rx.Completed;
     HgService.fetchHeadStatuses := Rx.mkRun [∅] Rx.Completed;
     HgService.fetchBookmarks :=
       fun _ => Rx.Fulfills 10 [{| active := true; bookmark := "main"; node := head |}];
     HgService.getHeadId := Rx.mkRun [Some head] Rx.Completed;
     HgService.fetchFileContentAtRevision := fun _ _ => Rx.mkRun ["old"] Rx.Completed;
     HgService.fetchFilesChangedAtRevision :=
       fun _ => Rx.mkRun [RevisionFileChanges.mk [] [] [] [] []] Rx.Completed;
     HgService.gitDiffContentAgainstFile := fun _ _ => Rx.mkRun ["diff"] Rx.Completed;
     HgService.parseDiff := fun _ => {| added := 1; deleted := 0; lineDiffs := [] |};
     HgService.commit := fun _ _ => Rx.mkRun [Exit (Some 0) None] Rx.Completed;
     HgService.amend := fun _ _ _ => Rx.mkRun [Exit (Some 0) None] Rx.Completed;
     HgService.revert := fun _ _ => Rx.Fulfills 10 tt;
     HgService.checkout := fun _ _ => Rx.mkRun [Exit (Some 0) None] Rx.Completed;
     HgService.rebase := fun _ _ => Rx.mkRun [Exit (Some 0) None] Rx.Completed;
     HgService.pull := fun _ => Rx.mkRun [Exit (Some 0) None] Rx.Completed;
     HgService.createBookmark := fun _ _ => Rx.Fulfills 10 tt;
     HgService.deleteBookmark := fun _ => Rx.Fulfills 10 tt;
     HgService.renameBookmark := fun _ _ => Rx.Fulfills 10 tt |}.

(** A client of the repository [/repo/.hg] right after its construction. *)
Definition fresh_client : SharedMembers := constructor "/repo/.hg" true.

(** The fresh client after one refresh of the uncommitted statuses. *)
Definition refreshed_client : SharedMembers :=
  step sample_ids sample_directory (working_service "A")
       (StatusTrigger Uncommitted) fresh_client.

(** ** Vocabulary of the properties *)

(** The observable [o] keeps the property [P] of the state. *)
Definition preserves {St A} (P : St -> Prop) (o : Rx.Observable St A) : Prop :=
  forall s, P s -> P (o s).2.

(** The events emitted so far, in order. *)
Definition emitted (s : SharedMembers) : list Event :=
  omap (fun x => match x with Emit e => Some e | _ => None end) (effects s).

(** The last value sent to [isFetchingPathStatuses]. *)
Definition isFetching (s : SharedMembers) : option bool :=
  last (omap (fun x => match x with IsFetchingPathStatuses b => Some b | _ => None end)
             (effects s)).

(** The status, diff and head-content caches of [s'] are cleared for the
    paths [filePaths], or entirely when there are none. *)
Definition caches_cleared (filePaths : list string) (s' : SharedMembers) : Prop :=
  match filePaths with
  | [] =>
      hgStatusCache s' = ∅ /\ hgDiffCache s' = ∅
      /\ LRU.entries (fileContentsAtHead s') = []
  | _ =>
      forall p, p ∈ filePaths ->
                hgStatusCache s' !! p = None /\ hgDiffCache s' !! p = None
  end.

(** [c'] is what one operation of the client on the cache [c] leaves. *)
Inductive LRU_op {K V : Type} `{EqDecision K} (c : LRU.t K V) : LRU.t K V -> Prop :=
| op_get (k : K) : LRU_op c (LRU.get k c).2
| op_set (k : K) (v : V) : LRU_op c (LRU.set k v c)
| op_reset : LRU_op c (LRU.reset c).

(** A property of the shared members that no assignment made by the client
    can break: the caches are only changed by cache operations, the flags of
    [destroy] are only raised, the head revision is either irrelevant to
    the property or known to be set, and the subscriptions that end are not
    those of the status pipelines. *)
Record stable (P : SharedMembers -> Prop) : Prop := {
  st_hgStatusCache v s : P s -> P (set_hgStatusCache v s);
  st_hgDiffCache v s : P s -> P (set_hgDiffCache v s);
  st_hgDiffCacheFilesUpdating v s : P s -> P (set_hgDiffCacheFilesUpdating v s);
  st_hgDiffCacheFilesToClear v s : P s -> P (set_hgDiffCacheFilesToClear v s);
  st_revisionIdToFileChanges c s :
    P s -> LRU_op (revisionIdToFileChanges s) c -> P (set_revisionIdToFileChanges c s);
  st_fileContentsAtRevisionIds c s :
    P s -> LRU_op (fileContentsAtRevisionIds s) c ->
    P (set_fileContentsAtRevisionIds c s);
  st_fileContentsAtHead c s :
    P s -> LRU_op (fileContentsAtHead s) c -> P (set_fileContentsAtHead c s);
  st_currentHeadId :
    (forall s, P s -> currentHeadId s <> None)
    \/ (forall v s, P s -> P (set_currentHeadId v s));
  st_bookmarks v s : P s -> P (set_bookmarks v s);
  st_isInConflict v s : P s -> P (set_isInConflict v s);
  st_isDestroyed s : P s -> P (set_isDestroyed true s);
  st_subscriptions_disposed s : P s -> P (set_subscriptions_disposed true s);
  st_repoSubscriptions v s : P s -> P (set_repoSubscriptions v s);
  st_mapObjects v s : P s -> P (set_mapObjects v s);
  st_endedPipelines p s :
    P s -> (forall ch, p <> StatusPipeline ch) ->
    P (set_endedPipelines (p :: endedPipelines s) s);
  st_effects v s : P s -> P (set_effects v s)
}.

(** The three bounded caches have the capacities the constructor gave them
    and hold no more entries than that. *)
Definition within_capacity (s : SharedMembers) : Prop :=
  LRU.max (revisionIdToFileChanges s) = 100%nat
  /\ LRU.max (fileContentsAtRevisionIds s) = 20%nat
  /\ LRU.max (fileContentsAtHead s) = 30%nat
  /\ (LRU.length (revisionIdToFileChanges s) <= 100)%nat
  /\ (LRU.length (fileContentsAtRevisionIds s) <= 20)%nat
  /\ (LRU.length (fileContentsAtHead s) <= 30)%nat.

(** [destroy] ran: the flag is raised and the subscriptions are disposed. *)
Definition destroyed (s : SharedMembers) : Prop :=
  isDestroyed s = true /\ subscriptions_disposed s = true.

(** The actions that reach the client through a subscription held by
    [subscriptions]. *)
Definition held_by_subscriptions (a : Action) : bool :=
  match a with
  | BookmarksTrigger | RevisionsTrigger | ConflictStateChange _
  | DiffStatsDisabled | DiffStatsFile _ | DiffStatsFileClosed _ => true
  | _ => false
  end.

(** The fetch of a status channel: the call and what the backend answers. *)
Definition fetchStatuses_call (ch : Channel) : ServiceCall :=
  match ch with
  | Uncommitted => fetchStatuses_
  | Stack => fetchStackStatuses_
  | Head => fetchHeadStatuses_
  end.

Definition fetchStatuses_answer (svc : HgService.t) (ch : Channel)
  : Rx.Run (gmap string string) :=
  match ch with
  | Uncommitted => HgService.fetchStatuses svc
  | Stack => HgService.fetchStackStatuses svc
  | Head => HgService.fetchHeadStatuses svc
  end.

(** A source of [n] debounced triggers that then completes. *)
Definition triggers (n : nat) : Rx.Observable SharedMembers unit :=
  Rx.from (Rx.mkRun (replicate n tt) Rx.Completed).

(** What one trigger of a status pipeline does to the world outside, in
    order, before any value reaches a subscriber: the indicator is raised,
    the backend is called, a failure is logged, the indicator is lowered. *)
Definition fetch_cycle (svc : HgService.t) (ch : Channel) : list Effect :=
  [IsFetchingPathStatuses true; Service (fetchStatuses_call ch)]
    ++ match Rx.ending (fetchStatuses_answer svc ch) with
       | Rx.Errored => [LogError "HgService cannot fetch statuses"]
       | Rx.Completed => []
       end
    ++ [IsFetchingPathStatuses false].

(** An attempt to fetch the bookmarks fails: the promise is rejected, or the
    timeout passes first. *)
Definition fetchBookmarks_fails (p : Rx.PromiseRun (list BookmarkInfo)) : Prop :=
  Rx.ending (Rx.fromPromise_timeout FETCH_BOOKMARKS_TIMEOUT p) = Rx.Errored.

(** No status pipeline has been ended by an error. *)
Definition status_pipelines_live (s : SharedMembers) : Prop :=
  forall ch, StatusPipeline ch ∉ endedPipelines s.

(** The head revision [h] is cached. *)
Definition head_cached (h : string) (s : SharedMembers) : Prop :=
  currentHeadId s = Some h.

(** Thirty files of the sample working directory, each opened once while the
    backend works. *)
Definition thirty_files : list (HgService.t * Action) :=
  (fun i => (working_service "A",
             DiffStatsFile ("/repo/" +:+ String (Ascii.ascii_of_nat (65 + i)) "")))
    <$> seq 0 30.

(** A backend that works but whose repository has no head revision. *)
Definition headless_service : HgService.t :=
  {| HgService.fetchStatuses := HgService.fetchStatuses (working_service "A");
     HgService.fetchStackStatuses := HgService.fetchStackStatuses (working_service "A");
     HgService.fetchHeadStatuses := HgService.fetchHeadStatuses (working_service "A");
     HgService.fetchBookmarks := HgService.fetchBookmarks (working_service "A");
     HgService.getHeadId := Rx.mkRun [None] Rx.Completed;
     HgService.fetchFileContentAtRevision :=
       HgService.fetchFileContentAtRevision (working_service "A");
     HgService.fetchFilesChangedAtRevision :=
       HgService.fetchFilesChangedAtRevision (working_service "A");
     HgService.gitDiffContentAgainstFile :=
       HgService.gitDiffContentAgainstFile (working_service "A");
     HgService.parseDiff := HgService.parseDiff (working_service "A");
     HgService.commit := HgService.commit (working_service "A");
     HgService.amend := HgService.amend (working_service "A");
     HgService.revert := HgService.revert (working_service "A");
     HgService.checkout := HgService.checkout (working_service "A");
     HgService.rebase := HgService.rebase (working_service "A");
     HgService.pull := HgService.pull (working_service "A");
     HgService.createBookmark := HgService.createBookmark (working_service "A");
     HgService.deleteBookmark := HgService.deleteBookmark (working_service "A");
     HgService.renameBookmark := HgService.renameBookmark (working_service "A") |}.

(** ** Further methods of the client *)

(** [name || ''] for a [?string]. *)
Definition or_empty (name : option string) : string :=
  match name with
  | Some n => if bool_decide (n = "") then "" else n
  | None => ""
  end.

Definition getShortHead (s : SharedMembers) : string :=
  or_empty
    (head (bookmark <$>
             filter (fun b => active b = true) (Bookmarks.bookmarks (bookmarks s)))).

(** [RevisionInfo] and [RevisionInfoFetched] of the [HgService], as far as
    [observeHeadRevision] reads them. *)
Module RevisionInfo.
Record t := mk { id : Z; hash : string; isHead : bool }.
End RevisionInfo.

Module RevisionInfoFetched.
Record t := mk { revisions : list RevisionInfo.t; fromFilesystem : bool }.
End RevisionInfoFetched.

(** [observeHeadRevision], from the values of [observeRevisionChanges]:
    [find] the head of each list, [compact] away the lists without one, and
    keep a head when its hash differs from the one before. *)
Definition observeHeadRevision (revisionChanges : list RevisionInfoFetched.t)
  : list RevisionInfo.t :=
  distinctUntilChanged_with
    (fun prevRev nextRev =>
       bool_decide (RevisionInfo.hash prevRev = RevisionInfo.hash nextRev))
    (omap (fun revisionInfoFetched =>
             snd <$> list_find (fun revision => RevisionInfo.isHead revision = true)
                               (RevisionInfoFetched.revisions revisionInfoFetched))
          revisionChanges).

(** A backend that works, but whose first answer to [fetchBookmarks] is a
    rejection. *)
Definition recovering_service : HgService.t :=
  {| HgService.fetchStatuses := HgService.fetchStatuses (working_service "A");
     HgService.fetchStackStatuses := HgService.fetchStackStatuses (working_service "A");
     HgService.fetchHeadStatuses := HgService.fetchHeadStatuses (working_service "A");
     HgService.fetchBookmarks :=
       fun i =>
         match i with
         | O => Rx.Rejects 10
         | S _ => HgService.fetchBookmarks (working_service "A") i
         end;
     HgService.getHeadId := HgService.getHeadId (working_service "A");
     HgService.fetchFileContentAtRevision :=
       HgService.fetchFileContentAtRevision (working_service "A");
     HgService.fetchFilesChangedAtRevision :=
       HgService.fetchFilesChangedAtRevision (working_service "A");
     HgService.gitDiffContentAgainstFile :=
       HgService.gitDiffContentAgainstFile (working_service "A");
     HgService.parseDiff := HgService.parseDiff (working_service "A");
     HgService.commit := HgService.commit (working_service "A");
     HgService.amend := HgService.amend (working_service "A");
     HgService.revert := HgService.revert (working_service "A");
     HgService.checkout := HgService.checkout (working_service "A");
     HgService.rebase := HgService.rebase (working_service "A");
     HgService.pull := HgService.pull (working_service "A");
     HgService.createBookmark := HgService.createBookmark (working_service "A");
     HgService.deleteBookmark := HgService.deleteBookmark (working_service "A");
     HgService.renameBookmark := HgService.renameBookmark (working_service "A") |}.

(** The refreshed client after a diff update of a modified file. *)
Definition diffed_client : SharedMembers :=
  step sample_ids sample_directory (working_service "A")
       (DiffStatsFile "/repo/b.txt") refreshed_client.

(** * Properties *)

(** ** Strings *)

Lemma append_String (c : Ascii.ascii) (a b : string) :
  String c a +:+ b = String c (a +:+ b).
Proof. reflexivity. Qed.

Lemma append_assoc (a b c : string) : (a +:+ b) +:+ c = a +:+ (b +:+ c).
Proof. induction a as [|x a IH]; [done|]. by rewrite !append_String, IH. Qed.

Lemma prefix_app (a b : string) :
  String.prefix a b = true <-> exists rest, b = a +:+ rest.
Proof.
  revert b. induction a as [|c a IH]; intros [|c' b]; simpl.
  - split; [intros _; by exists "" | done].
  - split; [intros _; by exists (String c' b) | done].
  - split; [done | by intros [rest ?]].
  - setoid_rewrite append_String. destruct (Ascii.ascii_dec c c') as [-> | Hne].
    + rewrite IH. split; intros [rest Hr]; exists rest; congruence.
    + split; [done | intros [rest Hr]; congruence].
Qed.

Lemma indexOf_from_unfold (str searchString : string) (i : Z) :
  indexOf_from str searchString i =
  if String.prefix searchString str then i
  else match str with
       | EmptyString => -1
       | String _ rest => indexOf_from rest searchString (i + 1)
       end.
Proof. by destruct str. Qed.

Lemma indexOf_from_range (str searchString : string) (i : Z) :
  indexOf_from str searchString i = -1 \/ i <= indexOf_from str searchString i.
Proof.
  revert i. induction str as [|c str IH]; intros i;
    rewrite indexOf_from_unfold; destruct (String.prefix searchString _);
    try (right; lia); [by left|].
  destruct (IH (i + 1)) as [-> | ?]; [by left | right; lia].
Qed.

Lemma indexOf_zero (str searchString : string) :
  indexOf str searchString = 0 <-> String.prefix searchString str = true.
Proof.
  unfold indexOf. rewrite indexOf_from_unfold.
  destruct (String.prefix searchString str); [done|].
  split; [|done]. destruct str as [|c str]; [lia|].
  pose proof (indexOf_from_range str searchString (0 + 1)). lia.
Qed.

(** ** Reading status *)

Section StatusFacts.

Variable StatusCodeNumber : StatusCodeNumberTable.

Lemma _isPathWithinHgRepo_spec (filePath : string) (s : SharedMembers) :
  _isPathWithinHgRepo filePath s = true <->
  filePath = path s \/ exists rest, filePath = path s +:+ "/" +:+ rest.
Proof.
  unfold _isPathWithinHgRepo, getPath_.
  rewrite orb_true_iff, bool_decide_eq_true, Z.eqb_eq, indexOf_zero, prefix_app.
  split; (intros [?|[rest Hr]]; [by left | right; exists rest]);
    by rewrite Hr, append_assoc.
Qed.

(** C8: a path that is not in the status cache, and a null or empty path,
    has the status [CLEAN], through [getCachedPathStatus] as through
    [getPathStatus]. *)
Theorem getPathStatus_clean_on_miss (filePath : option string) (s : SharedMembers) :
  not_string filePath = true \/ hgStatusCache_get filePath s = None ->
  getCachedPathStatus StatusCodeNumber filePath s = CLEAN StatusCodeNumber
  /\ (forall p, filePath = Some p ->
             getPathStatus StatusCodeNumber p s = CLEAN StatusCodeNumber).
Proof.
  intros H.
  assert (Hc : getCachedPathStatus StatusCodeNumber filePath s = CLEAN StatusCodeNumber).
  { unfold getCachedPathStatus. destruct (not_string filePath) eqn:E; [done|].
    destruct H as [? | ->]; done. }
  split; [done|]. intros p ->. exact Hc.
Qed.

(** C10: on a path without a cached status, [isPathIgnored] tells whether
    the path is the repository path or lies below it, and the four other
    predicates answer false; on a null or empty path all five answer false. *)
Theorem predicates_on_cache_miss (filePath : option string) (s : SharedMembers) :
  not_string filePath = true \/ hgStatusCache_get filePath s = None ->
  isPathModified StatusCodeNumber filePath s = false
  /\ isPathNew StatusCodeNumber filePath s = false
  /\ isPathAdded StatusCodeNumber filePath s = false
  /\ isPathUntracked StatusCodeNumber filePath s = false
  /\ (isPathIgnored StatusCodeNumber filePath s = true <->
      exists p, filePath = Some p /\ p <> ""
                /\ (p = path s \/ exists rest, p = path s +:+ "/" +:+ rest)).
Proof.
  intros H.
  unfold isPathModified, isPathNew, isPathAdded, isPathUntracked, isPathIgnored.
  destruct (not_string filePath) eqn:E.
  - repeat split; try done.
    intros (p & -> & Hp & _). simpl in E. by apply bool_decide_eq_true in E.
  - destruct H as [? | ->]; [done|]. simpl. repeat split; try done.
    + intros Hin. destruct filePath as [p|]; [|done]. simpl in *.
      exists p. apply bool_decide_eq_false in E.
      split; [done|]. split; [done|]. by apply _isPathWithinHgRepo_spec.
    + intros (p & -> & Hp & Hin). simpl. by apply _isPathWithinHgRepo_spec.
Qed.

End StatusFacts.

(** ** Observables and invariants of the state *)

Section RxFacts.

Context {St : Type} (P : St -> Prop).

Lemma preserves_of_ {A} (a : A) : preserves P (Rx.of_ a).
Proof. by intros s. Qed.

Lemma preserves_empty {A} : preserves P (@Rx.empty St A).
Proof. by intros s. Qed.

Lemma preserves_from {A} (r : Rx.Run A) : preserves P (Rx.from r).
Proof. by intros s. Qed.

Lemma preserves_map {A B} (f : A -> B) (o : Rx.Observable St A) :
  preserves P o -> preserves P (Rx.map f o).
Proof. intros Ho s Hs. unfold Rx.map. specialize (Ho s Hs). by destruct (o s). Qed.

Lemma foldl_preserves {A} (f : A -> St -> St) (l : list A) (s : St) :
  (forall a s, P s -> P (f a s)) -> P s -> P (foldl (fun acc a => f a acc) s l).
Proof. intros Hf. revert s. induction l as [|a l IH]; simpl; auto. Qed.

Lemma preserves_do_ {A} (f : A -> St -> St) (o : Rx.Observable St A) :
  preserves P o -> (forall a s, P s -> P (f a s)) -> preserves P (Rx.do_ f o).
Proof.
  intros Ho Hf s Hs. unfold Rx.do_. specialize (Ho s Hs).
  destruct (o s) as [r s1]. simpl in *. by apply foldl_preserves.
Qed.

Lemma preserves_catch {A} (h o : Rx.Observable St A) :
  preserves P o -> preserves P h -> preserves P (Rx.catch h o).
Proof.
  intros Ho Hh s Hs. unfold Rx.catch. specialize (Ho s Hs).
  destruct (o s) as [r s1]. simpl in *. destruct (Rx.ending r); [done|].
  specialize (Hh s1 Ho). by destruct (h s1).
Qed.

Lemma preserves_finally {A} (f : St -> St) (o : Rx.Observable St A) :
  preserves P o -> (forall s, P s -> P (f s)) -> preserves P (Rx.finally f o).
Proof.
  intros Ho Hf s Hs. unfold Rx.finally. specialize (Ho s Hs).
  destruct (o s) as [r s1]. simpl in *. auto.
Qed.

Lemma preserves_each {A B} (f : A -> Rx.Observable St B) (l : list A) :
  (forall a, a ∈ l -> preserves P (f a)) -> preserves P (Rx.each f l).
Proof.
  induction l as [|a l IH]; intros Hf s Hs; simpl; [done|].
  assert (Ha : preserves P (f a)) by (apply Hf; left).
  specialize (Ha s Hs). destruct (f a s) as [r s1]. simpl in *.
  destruct (Rx.ending r); [|done].
  assert (Hl : preserves P (Rx.each f l)) by (apply IH; intros; apply Hf; by right).
  specialize (Hl s1 Ha). by destruct (Rx.each f l s1).
Qed.

Lemma preserves_switchMap {A B} (f : A -> Rx.Observable St B)
  (o : Rx.Observable St A) :
  preserves P o -> (forall a, preserves P (f a)) -> preserves P (Rx.switchMap f o).
Proof.
  intros Ho Hf s Hs. unfold Rx.switchMap. specialize (Ho s Hs).
  destruct (o s) as [r s1]. simpl in *.
  pose proof (preserves_each f (Rx.emits r) (fun a _ => Hf a) s1 Ho) as He.
  by destruct (Rx.each f (Rx.emits r) s1).
Qed.

Lemma preserves_merge {A} (os : list (Rx.Observable St A)) :
  Forall (preserves P) os -> preserves P (Rx.merge os).
Proof.
  intros Hos. apply preserves_each. intros o Ho.
  by apply (proj1 (Forall_forall _ _) Hos).
Qed.

Lemma preserves_toArray {A} (o : Rx.Observable St A) :
  preserves P o -> preserves P (Rx.toArray o).
Proof.
  intros Ho s Hs. unfold Rx.toArray. specialize (Ho s Hs).
  destruct (o s) as [r s1]. by destruct (Rx.ending r).
Qed.

Lemma preserves_retry {A} (count : nat) (source : nat -> Rx.Observable St A)
  (i : nat) :
  (forall i, preserves P (source i)) -> preserves P (Rx.retry count source i).
Proof.
  intros Hsrc. revert i. induction count as [|c IH]; intros i s Hs; simpl.
  - specialize (Hsrc i s Hs). destruct (source i s) as [r s1].
    by destruct (Rx.ending r).
  - specialize (Hsrc i s Hs). destruct (source i s) as [r s1]. simpl in *.
    destruct (Rx.ending r); [done|].
    specialize (IH (S i) s1 Hsrc). by destruct (Rx.retry c source (S i) s1).
Qed.

Lemma map_with_preserves {A B} (f : A -> St -> B * St) (Q : B -> Prop)
  (l : list A) (s : St) :
  (forall a s, P s -> P (f a s).2 /\ Q (f a s).1) ->
  P s -> P (map_with f l s).2 /\ Forall Q (map_with f l s).1.
Proof.
  intros Hf. revert s. induction l as [|a l IH]; intros s Hs; simpl; [done|].
  destruct (Hf a s Hs) as [H1 H2]. destruct (f a s) as [b s1]. simpl in *.
  destruct (IH s1 H1) as [H3 H4]. destruct (map_with f l s1) as [bs s2].
  simpl in *. split; [done | by constructor].
Qed.

End RxFacts.

(** An observable whose errors are caught and replaced by an empty
    observable never ends with an error. *)
Lemma catch_empty_ending {A} (h : SharedMembers -> SharedMembers)
  (o : Rx.Observable SharedMembers A) (s : SharedMembers) :
  Rx.ending (Rx.catch (fun s => Rx.empty (h s)) o s).1 = Rx.Completed.
Proof.
  unfold Rx.catch. destruct (o s) as [r s1]. by destruct (Rx.ending r) eqn:E.
Qed.

(** ** The run of a status pipeline *)

Section StatusPipelineRun.

Variable StatusCodeIdToNumber : string -> Z.

(** One trigger of a status pipeline: the run of [statusChanges] and the
    state it leaves before the values reach the subscribers. *)
Lemma hgStatusChanges_trigger (svc : HgService.t) (ch : Channel) (s : SharedMembers) :
  let r := fetchStatuses_answer svc ch in
  hgStatusChanges StatusCodeIdToNumber svc ch (Rx.of_ tt) s =
  (Rx.mkRun ((fun m : gmap string string => StatusCodeIdToNumber <$> m) <$> Rx.emits r)
             Rx.Completed,
   effect (IsFetchingPathStatuses false)
     (match Rx.ending r with
      | Rx.Completed => fun s => s
      | Rx.Errored => effect (LogError "HgService cannot fetch statuses")
      end (effect (Service (fetchStatuses_call ch))
             (effect (IsFetchingPathStatuses true) s)))).
Proof.
  destruct ch; simpl; unfold _observeStatus, Rx.map, Rx.switchMap, Rx.finally,
    Rx.catch, Rx.of_, service; simpl;
    match goal with |- context [Rx.ending ?r] => destruct r as [vals []] end;
    simpl; by rewrite !app_nil_r.
Qed.

(** A run of [statusChanges] over several triggers is its run over the
    first, whatever the fetch did, followed by its run over the others. *)
Lemma _observeStatus_cons
  (fetchStatuses : Rx.Observable SharedMembers (gmap string string))
  (l : list unit) (s : SharedMembers) :
  _observeStatus StatusCodeIdToNumber
    (Rx.from (Rx.mkRun (tt :: l) Rx.Completed)) fetchStatuses s =
  let '(r1, s1) := _observeStatus StatusCodeIdToNumber (Rx.of_ tt) fetchStatuses s in
  let '(r2, s2) := _observeStatus StatusCodeIdToNumber
                     (Rx.from (Rx.mkRun l Rx.Completed)) fetchStatuses s1 in
  (Rx.mkRun (Rx.emits r1 ++ Rx.emits r2) (Rx.ending r2), s2).
Proof.
  unfold _observeStatus, Rx.map, Rx.switchMap, Rx.from, Rx.of_. simpl.
  unfold Rx.finally.
  pose proof (catch_empty_ending
                (effect (LogError "HgService cannot fetch statuses"))
                fetchStatuses (effect (IsFetchingPathStatuses true) s)) as Hc.
  destruct (Rx.catch _ fetchStatuses _) as [r s1]. simpl in *. rewrite Hc. simpl.
  destruct (Rx.each _ l _) as [r2 s2]. simpl.
  rewrite app_nil_r, fmap_app. by destruct (Rx.ending r2).
Qed.

Lemma hgStatusChanges_cons (svc : HgService.t) (ch : Channel) (l : list unit)
  (s : SharedMembers) :
  hgStatusChanges StatusCodeIdToNumber svc ch
    (Rx.from (Rx.mkRun (tt :: l) Rx.Completed)) s =
  let '(r1, s1) := hgStatusChanges StatusCodeIdToNumber svc ch (Rx.of_ tt) s in
  let '(r2, s2) := hgStatusChanges StatusCodeIdToNumber svc ch
                     (Rx.from (Rx.mkRun l Rx.Completed)) s1 in
  (Rx.mkRun (Rx.emits r1 ++ Rx.emits r2) (Rx.ending r2), s2).
Proof. destruct ch; apply _observeStatus_cons. Qed.

(** Over [n] triggers, a status pipeline fetches [n] times, whether the
    fetches fail or not. *)
Lemma hgStatusChanges_triggers (svc : HgService.t) (ch : Channel) (n : nat)
  (s : SharedMembers) :
  let many := hgStatusChanges StatusCodeIdToNumber svc ch (triggers n) s in
  Rx.ending many.1 = Rx.Completed
  /\ Rx.emits many.1 =
       concat (replicate n
                 ((fun m : gmap string string => StatusCodeIdToNumber <$> m)
                    <$> Rx.emits (fetchStatuses_answer svc ch)))
  /\ effects many.2 = effects s ++ concat (replicate n (fetch_cycle svc ch))
  /\ hgStatusCache many.2 = hgStatusCache s.
Proof.
  revert s. induction n as [|n IH]; intros s.
  - destruct ch; simpl; by rewrite app_nil_r.
  - unfold triggers. simpl replicate. cbv zeta. rewrite hgStatusChanges_cons.
    rewrite hgStatusChanges_trigger.
    match goal with
    | |- context [hgStatusChanges _ _ _ _ ?s1] =>
        specialize (IH s1); unfold triggers in IH;
        destruct (hgStatusChanges StatusCodeIdToNumber svc ch
                    (Rx.from (Rx.mkRun (replicate n tt) Rx.Completed)) s1)
          as [r2 s2]
    end.
    simpl in *. destruct IH as (H1 & H2 & H3 & H4).
    rewrite H1, H2, H3, H4. unfold fetch_cycle.
    destruct (Rx.ending (fetchStatuses_answer svc ch)); simpl;
      rewrite <- !app_assoc; done.
Qed.

End StatusPipelineRun.

(** ** Stable properties are invariants of the client *)

Create HintDb stable.

Section StableFacts.

Variable StatusCodeIdToNumber : string -> Z.
Variable workingDirectory : Directory.
Variable P : SharedMembers -> Prop.
Hypothesis HP : stable P.

Local Hint Resolve preserves_of_ preserves_empty preserves_from preserves_map
  preserves_do_ preserves_catch preserves_finally preserves_switchMap
  preserves_toArray preserves_retry : stable.

Lemma effect_stable (e : Effect) (s : SharedMembers) : P s -> P (effect e s).
Proof. intros Hs. by apply (st_effects P HP). Qed.

Lemma preserves_service {A} (c : ServiceCall) (r : Rx.Run A) :
  preserves P (service c r).
Proof. intros s Hs. by apply effect_stable. Qed.

Local Hint Resolve effect_stable preserves_service : stable.

Lemma preserves__getCurrentHeadId (svc : HgService.t) :
  preserves P (_getCurrentHeadId svc).
Proof.
  intros s Hs. unfold _getCurrentHeadId.
  destruct (currentHeadId s) eqn:E; [done|].
  destruct (st_currentHeadId P HP) as [Hset | Hany].
  - by destruct (Hset s Hs).
  - apply preserves_do_; auto with stable.
Qed.

Lemma fileContent_stable (svc : HgService.t) (revision filePath : string)
  (s : SharedMembers) :
  P s ->
  P (fileContent svc revision filePath s).2
  /\ preserves P (fileContent svc revision filePath s).1.
Proof.
  intros Hs. unfold fileContent.
  pose proof (op_get (fileContentsAtHead s) filePath) as Hop.
  destruct (LRU.get filePath (fileContentsAtHead s)) as [cached cache].
  simpl in *. split; [by apply (st_fileContentsAtHead P HP)|].
  apply preserves_map, preserves_switchMap; [|auto with stable].
  destruct cached; [auto with stable|].
  apply preserves_do_; [auto with stable|].
  intros contents s' Hs'. apply (st_fileContentsAtHead P HP); [done | constructor].
Qed.

Lemma preserves__getFileDiffs (svc : HgService.t) (pathsToFetch : list string)
  (revision : string) :
  preserves P (_getFileDiffs svc pathsToFetch revision).
Proof.
  intros s Hs. unfold _getFileDiffs.
  destruct (map_with_preserves P (fileContent svc revision) (preserves P)
              pathsToFetch s) as [H1 H2]; [|done|].
  { intros a s' Hs'. by apply fileContent_stable. }
  destruct (map_with (fileContent svc revision) pathsToFetch s) as [os s1].
  simpl in *.
  apply preserves_map; [|done].
  by apply preserves_toArray, preserves_map, preserves_merge.
Qed.

Lemma pathsToFetch_of_stable (filePaths : list string) (s : SharedMembers) :
  P s -> P (pathsToFetch_of workingDirectory filePaths s).2.
Proof.
  revert s. induction filePaths as [|aPath rest IH]; intros s Hs; simpl; [done|].
  destruct (negb _); [by apply IH|].
  destruct (bool_decide _); [by apply IH|].
  specialize (IH (set_hgDiffCacheFilesUpdating
                    ({[aPath]} ∪ hgDiffCacheFilesUpdating s) s)).
  destruct (pathsToFetch_of _ rest _) as [kept s2]. simpl in *.
  apply IH. by apply (st_hgDiffCacheFilesUpdating P HP).
Qed.

Lemma _updateDiffInfo_do_stable (pathsToFetch : list string)
  (pathsToDiffInfo : gmap string DiffInfo) (s : SharedMembers) :
  P s -> P (_updateDiffInfo_do pathsToFetch pathsToDiffInfo s).
Proof.
  intros Hs. unfold _updateDiffInfo_do, emit.
  apply effect_stable, (st_hgDiffCacheFilesUpdating P HP),
    (st_hgDiffCacheFilesToClear P HP), (st_hgDiffCache P HP),
    (st_hgDiffCache P HP), Hs.
Qed.

Lemma preserves__updateDiffInfo (svc : HgService.t) (filePaths : list string) :
  preserves P (_updateDiffInfo workingDirectory svc filePaths).
Proof.
  intros s Hs. unfold _updateDiffInfo.
  pose proof (pathsToFetch_of_stable filePaths s Hs) as H1.
  destruct (pathsToFetch_of workingDirectory filePaths s) as [pathsToFetch s1].
  simpl in H1. destruct (bool_decide _); [done|].
  apply preserves_switchMap; [apply preserves__getCurrentHeadId | | done].
  intros [headId|]; [|auto with stable].
  apply preserves_do_; [apply preserves__getFileDiffs|].
  intros. by apply _updateDiffInfo_do_stable.
Qed.

Lemma preserves_fetchFileContentAtRevision (svc : HgService.t)
  (filePath revision : string) :
  preserves P (fetchFileContentAtRevision svc filePath revision).
Proof.
  intros s Hs. unfold fetchFileContentAtRevision.
  pose proof (op_get (fileContentsAtRevisionIds s) revision) as Hop.
  destruct (LRU.get revision (fileContentsAtRevisionIds s)) as [found cache].
  simpl in Hop.
  pose proof (st_fileContentsAtRevisionIds P HP cache s Hs Hop) as H1.
  assert (H2 : forall object s2, P s2 ->
            P (match mapObjects s2 !! object ≫= (fun m : gmap string string => m !! filePath) with
               | Some contents => Rx.of_ contents s2
               | None =>
                   Rx.do_ (fun contents s =>
                             set_mapObjects
                               (alter <[filePath := contents]> object (mapObjects s)) s)
                          (service (fetchFileContentAtRevision_ filePath revision)
                                   (HgService.fetchFileContentAtRevision svc filePath revision)) s2
               end).2).
  { intros object s2 Hs2. destruct (_ ≫= _); [done|].
    apply preserves_do_; [auto with stable | | done].
    intros. by apply (st_mapObjects P HP). }
  destruct found; apply H2; [done|].
  apply (st_fileContentsAtRevisionIds P HP);
    [by apply (st_mapObjects P HP) | constructor].
Qed.

Lemma preserves_fetchFilesChangedAtRevision (svc : HgService.t)
  (revision : string) :
  preserves P (fetchFilesChangedAtRevision svc revision).
Proof.
  intros s Hs. unfold fetchFilesChangedAtRevision.
  pose proof (op_get (revisionIdToFileChanges s) revision) as Hop.
  destruct (LRU.get revision (revisionIdToFileChanges s)) as [found cache].
  simpl in Hop.
  pose proof (st_revisionIdToFileChanges P HP cache s Hs Hop) as H1.
  destruct found; [done|].
  apply preserves_do_; [auto with stable | | done].
  intros. apply (st_revisionIdToFileChanges P HP); [done | constructor].
Qed.

Lemma _clearClientCache_stable (filePaths : list string) (s : SharedMembers) :
  P s -> P (_clearClientCache filePaths s).
Proof.
  intros Hs. unfold _clearClientCache, emit. apply effect_stable.
  destruct (bool_decide _).
  - apply (st_fileContentsAtHead P HP); [|constructor].
    by apply (st_hgStatusCache P HP), (st_hgDiffCache P HP).
  - revert s Hs. induction filePaths as [|p l IH]; intros s Hs; simpl; [done|].
    by apply IH, (st_hgStatusCache P HP), (st_hgDiffCache P HP).
Qed.

Lemma _clearOnSuccessExit_stable (message : LegacyProcessMessage)
  (filePaths : list string) (s : SharedMembers) :
  P s -> P (_clearOnSuccessExit message filePaths s).
Proof.
  intros Hs. destruct message as [| |[[| |]|] ?|]; simpl; try done.
  by apply _clearClientCache_stable.
Qed.

Lemma invoke_stable (svc : HgService.t) (op : Operation) (s : SharedMembers) :
  P s -> P (invoke svc op s).2.
Proof.
  intros Hs. destruct op; simpl; try by apply effect_stable.
  - apply foldl_preserves; [|by apply effect_stable].
    intros. by apply _clearOnSuccessExit_stable.
  - apply foldl_preserves; [|by apply effect_stable].
    intros. by apply _clearOnSuccessExit_stable.
Qed.

Lemma statusChanges_next_stable (ch : Channel) (statuses : gmap string Z)
  (s : SharedMembers) :
  P s -> P (statusChanges_next ch statuses s).
Proof.
  intros Hs. unfold statusChanges_next, emit.
  destruct ch; try by apply effect_stable.
  destruct (subscriptions_disposed _); [by apply effect_stable|].
  by apply effect_stable, (st_hgStatusCache P HP), effect_stable.
Qed.

Lemma preserves_bookmarksUpdates (svc : HgService.t)
  (triggers : Rx.Observable SharedMembers unit) :
  preserves P triggers -> preserves P (bookmarksUpdates svc triggers).
Proof.
  intros Ht. unfold bookmarksUpdates. apply preserves_switchMap; [done|].
  intros _. apply preserves_catch; [auto with stable|].
  intros s Hs. simpl. auto with stable.
Qed.

Lemma run_subscription_stable {A} (p : Pipeline)
  (next : A -> SharedMembers -> SharedMembers)
  (o : Rx.Observable SharedMembers A) (s : SharedMembers) :
  (forall ch, p <> StatusPipeline ch) ->
  preserves P o -> (forall a s, P s -> P (next a s)) ->
  P s -> P (run_subscription p next o s).
Proof.
  intros Hp Ho Hn Hs. unfold run_subscription. destruct (bool_decide _); [done|].
  pose proof (preserves_do_ P next o Ho Hn s Hs) as H1.
  destruct (Rx.do_ next o s) as [r s1]. simpl in H1.
  destruct (Rx.ending r); [done|]. by apply (st_endedPipelines P HP).
Qed.

Lemma subscribe_stable {A} (p : Pipeline)
  (next : A -> SharedMembers -> SharedMembers)
  (o : Rx.Observable SharedMembers A) (s : SharedMembers) :
  (forall ch, p <> StatusPipeline ch) ->
  preserves P o -> (forall a s, P s -> P (next a s)) ->
  P s -> P (subscribe p next o s).
Proof.
  intros Hp Ho Hn Hs. unfold subscribe. destruct (subscriptions_disposed s); [done|].
  by apply run_subscription_stable.
Qed.

(** A trigger of a status pipeline never ends its subscription. *)
Lemma statusTrigger_stable (svc : HgService.t) (ch : Channel) (s : SharedMembers) :
  P s ->
  P (run_subscription (StatusPipeline ch) (statusChanges_next ch)
       (hgStatusChanges StatusCodeIdToNumber svc ch (Rx.of_ tt)) s).
Proof.
  intros Hs. unfold run_subscription, Rx.do_. destruct (bool_decide _); [done|].
  rewrite hgStatusChanges_trigger. simpl.
  apply foldl_preserves; [intros; by apply statusChanges_next_stable|].
  apply effect_stable.
  destruct (Rx.ending _); repeat apply effect_stable; done.
Qed.

Lemma destroy_stable (s : SharedMembers) : P s -> P (destroy s).
Proof.
  intros Hs. unfold destroy. destruct (isDestroyed s); [done|].
  apply (st_repoSubscriptions P HP).
  apply (st_fileContentsAtRevisionIds P HP); [|constructor].
  apply (st_revisionIdToFileChanges P HP); [|constructor].
  by apply (st_subscriptions_disposed P HP), effect_stable, (st_isDestroyed P HP).
Qed.

Lemma step_stable (svc : HgService.t) (a : Action) (s : SharedMembers) :
  P s -> P (step StatusCodeIdToNumber workingDirectory svc a s).
Proof.
  intros Hs. destruct a; simpl.
  - by apply statusTrigger_stable.
  - apply subscribe_stable; [done| | |done].
    + apply preserves_bookmarksUpdates; auto with stable.
    + intros. by apply (st_bookmarks P HP).
  - apply subscribe_stable; [done|auto with stable| |done].
    intros _ s' Hs'. unfold shouldRevisionsUpdate_next.
    apply (st_hgDiffCache P HP), (st_fileContentsAtHead P HP); [|constructor].
    by apply effect_stable.
  - apply subscribe_stable; [done|auto with stable| |done].
    intros b s' Hs'. by apply effect_stable, (st_isInConflict P HP).
  - apply subscribe_stable; [done| |done|done].
    intros s' Hs'. by apply effect_stable, (st_hgDiffCache P HP).
  - apply subscribe_stable; [done|apply preserves__updateDiffInfo|done|done].
  - destruct (subscriptions_disposed s); [done|].
    by apply (st_hgDiffCacheFilesToClear P HP).
  - by apply preserves_fetchFileContentAtRevision.
  - by apply preserves_fetchFilesChangedAtRevision.
  - by apply invoke_stable.
  - by apply destroy_stable.
Qed.

Lemma run_stable (actions : list (HgService.t * Action)) (s : SharedMembers) :
  P s -> P (run StatusCodeIdToNumber workingDirectory actions s).
Proof.
  revert s. induction actions as [|[svc a] l IH]; intros s Hs; simpl; [done|].
  by apply IH, step_stable.
Qed.

End StableFacts.

(** ** The bounded caches *)

Section LRUFacts.

Context {K V : Type} `{EqDecision K}.
Implicit Types (c : LRU.t K V) (k : K) (v : V).

Lemma LRU_peek_Some c k v :
  LRU.peek k c = Some v -> (k, v) ∈ LRU.entries c.
Proof.
  unfold LRU.peek. destruct (list_find _ _) as [[i [k' v']]|] eqn:E; [|done].
  simpl. intros [= ->]. apply list_find_Some in E as (Hi & Hk & _).
  simpl in Hk. subst k'. by eapply list_elem_of_lookup_2.
Qed.

Lemma LRU_peek_None c k :
  LRU.peek k c = None -> LRU.without k (LRU.entries c) = LRU.entries c.
Proof.
  unfold LRU.peek, LRU.without.
  destruct (list_find _ _) as [[i [k' v']]|] eqn:E; [done|]. intros _.
  apply list_find_None in E. induction (LRU.entries c) as [|e l IH]; [done|].
  apply Forall_cons in E as [He Hl]. rewrite filter_cons_True by done.
  by rewrite IH.
Qed.

Lemma LRU_without_length c k v :
  LRU.peek k c = Some v ->
  (S (length (LRU.without k (LRU.entries c))) <= length (LRU.entries c))%nat.
Proof.
  intros Hp%LRU_peek_Some. unfold LRU.without.
  apply (length_filter_lt (fun e : K * V => e.1 ≠ k)) in Hp; [lia|].
  simpl. by intros Hne.
Qed.

Lemma LRU_set_length c k v : (LRU.length (LRU.set k v c) <= LRU.max c)%nat.
Proof. unfold LRU.length, LRU.set. simpl. rewrite length_take. lia. Qed.

Lemma LRU_get_length c k :
  (LRU.length (LRU.get k c).2 <= LRU.length c)%nat.
Proof.
  unfold LRU.get, LRU.length. destruct (LRU.peek k c) as [v|] eqn:E; [|done].
  simpl. by apply LRU_without_length with v.
Qed.

Lemma LRU_op_max c c' : LRU_op c c' -> LRU.max c' = LRU.max c.
Proof.
  intros [k|k v|]; try done. unfold LRU.get. by destruct (LRU.peek k c).
Qed.

Lemma LRU_op_length c c' :
  LRU_op c c' ->
  (LRU.length c <= LRU.max c)%nat -> (LRU.length c' <= LRU.max c')%nat.
Proof.
  intros Hop Hc. rewrite (LRU_op_max c c' Hop). destruct Hop as [k|k v|].
  - pose proof (LRU_get_length c k). lia.
  - apply LRU_set_length.
  - unfold LRU.length. simpl. lia.
Qed.

Lemma take_removelast {A} (l : list A) (n : nat) :
  length l = S n -> take n l = removelast l.
Proof.
  revert n. induction l as [|a l IH]; intros n Hn; [done|].
  destruct l as [|b l]; simpl in *.
  - injection Hn as <-. done.
  - destruct n as [|n]; [done|]. simpl. f_equal. apply IH. lia.
Qed.

(** A hit makes the entry the most recently used and keeps the others in
    their order. *)
Lemma LRU_get_hit c k v :
  LRU.peek k c = Some v ->
  LRU.get k c = (Some v, LRU.mk (LRU.max c) ((k, v) :: LRU.without k (LRU.entries c))).
Proof. intros Hp. unfold LRU.get. by rewrite Hp. Qed.

(** An insertion below the capacity drops nothing. *)
Lemma LRU_set_fits c k v :
  LRU.peek k c = None -> (LRU.length c < LRU.max c)%nat ->
  LRU.entries (LRU.set k v c) = (k, v) :: LRU.entries c.
Proof.
  intros Hp Hlen. unfold LRU.set, LRU.length in *. simpl.
  rewrite (LRU_peek_None c k Hp). apply take_ge. simpl. lia.
Qed.

(** An insertion into a full cache drops the least recently used entry, the
    last one, and nothing else. *)
Lemma LRU_set_evicts c k v :
  LRU.peek k c = None -> LRU.length c = LRU.max c -> (0 < LRU.max c)%nat ->
  LRU.entries (LRU.set k v c) = (k, v) :: removelast (LRU.entries c).
Proof.
  intros Hp Hlen Hmax. unfold LRU.set, LRU.length in *. simpl.
  rewrite (LRU_peek_None c k Hp). destruct (LRU.max c) as [|n]; [lia|].
  simpl. f_equal. by apply take_removelast.
Qed.

End LRUFacts.

(** ** The capacities of the three caches *)

Lemma within_capacity_stable : stable within_capacity.
Proof.
  split; try (intros; assumption);
    try (right; intros; assumption);
    intros c s (M1 & M2 & M3 & L1 & L2 & L3) Hop;
    pose proof (LRU_op_max _ _ Hop) as Hm;
    pose proof (LRU_op_length _ _ Hop) as Hl;
    unfold within_capacity; simpl; rewrite Hm in *;
    repeat split; try done; rewrite ?M1, ?M2, ?M3 in Hl; apply Hl; lia.
Qed.

(** ** Effects *)

Lemma emitted_effect (e : Effect) (s : SharedMembers) :
  emitted (effect e s) =
  emitted s ++ match e with Emit ev => [ev] | _ => [] end.
Proof.
  unfold emitted, effect. simpl. rewrite omap_app. by destruct e.
Qed.

Lemma isFetching_effect (b : bool) (s : SharedMembers) :
  isFetching (effect (IsFetchingPathStatuses b) s) = Some b.
Proof.
  unfold isFetching, effect. simpl. rewrite omap_app. simpl. apply last_snoc.
Qed.

(** ** Clearing the client cache *)

Lemma foldl_delete_lookup {V} (m : gmap string V) (l : list string) (p : string) :
  foldl (fun m p => delete p m) m l !! p =
  if decide (p ∈ l) then None else m !! p.
Proof.
  revert m. induction l as [|q l IH]; intros m; [done|].
  change (foldl (fun m p => delete p m) (delete q m) l !! p =
            if decide (p ∈ q :: l) then None else m !! p).
  rewrite IH. destruct (decide (p = q)) as [-> | Hne].
  - rewrite lookup_delete_eq, (decide_True (P := q ∈ q :: l)) by (by left).
    by destruct (decide (q ∈ l)).
  - rewrite lookup_delete_ne by done. destruct (decide (p ∈ l)) as [Hin | Hout].
    + by rewrite decide_True by (by right).
    + rewrite decide_False; [done|]. by intros [? | ?]%elem_of_cons.
Qed.

Lemma clear_paths_caches (filePaths : list string) (s : SharedMembers) :
  let s' := foldl (fun s filePath =>
                     let s := set_hgDiffCache (delete filePath (hgDiffCache s)) s in
                     set_hgStatusCache (delete filePath (hgStatusCache s)) s)
                  s filePaths in
  hgStatusCache s' = foldl (fun m p => delete p m) (hgStatusCache s) filePaths
  /\ hgDiffCache s' = foldl (fun m p => delete p m) (hgDiffCache s) filePaths
  /\ fileContentsAtHead s' = fileContentsAtHead s
  /\ effects s' = effects s.
Proof.
  revert s. induction filePaths as [|p l IH]; intros s; [done|].
  exact (IH (set_hgStatusCache (delete p (hgStatusCache s))
               (set_hgDiffCache (delete p (hgDiffCache s)) s))).
Qed.

Lemma _clearClientCache_all (s : SharedMembers) :
  let s' := _clearClientCache [] s in
  hgStatusCache s' = ∅ /\ hgDiffCache s' = ∅
  /\ LRU.entries (fileContentsAtHead s') = [].
Proof. done. Qed.

Lemma _clearClientCache_paths (filePaths : list string) (s : SharedMembers) (p : string) :
  filePaths <> [] ->
  let s' := _clearClientCache filePaths s in
  hgStatusCache s' !! p = (if decide (p ∈ filePaths) then None else hgStatusCache s !! p)
  /\ hgDiffCache s' !! p = (if decide (p ∈ filePaths) then None else hgDiffCache s !! p)
  /\ fileContentsAtHead s' = fileContentsAtHead s.
Proof.
  intros Hne. unfold _clearClientCache.
  rewrite bool_decide_eq_false_2 by (by destruct filePaths).
  destruct (clear_paths_caches filePaths s) as (H1 & H2 & H3 & _).
  unfold emit, effect, set_effects.
  cbn [hgStatusCache hgDiffCache fileContentsAtHead]. cbv zeta in *.
  rewrite H1, H2, H3, !foldl_delete_lookup. done.
Qed.

Lemma _clearClientCache_cleared (filePaths : list string) (s : SharedMembers) :
  caches_cleared filePaths (_clearClientCache filePaths s).
Proof.
  destruct filePaths as [|q l]; [apply _clearClientCache_all|].
  intros p Hp. destruct (_clearClientCache_paths (q :: l) s p) as (H1 & H2 & _); [done|].
  rewrite H1, H2. by rewrite !decide_True by done.
Qed.

(** C6: with paths, [_clearClientCache] removes exactly these paths from the
    status cache and the diff cache and keeps every other entry; without
    paths it empties the status cache, the diff cache and the head-content
    cache. *)
Theorem _clearClientCache_effect (filePaths : list string) (s : SharedMembers) :
  let s' := _clearClientCache filePaths s in
  match filePaths with
  | [] =>
      hgStatusCache s' = ∅ /\ hgDiffCache s' = ∅
      /\ LRU.entries (fileContentsAtHead s') = []
  | _ =>
      forall p : string,
        hgStatusCache s' !! p =
          (if decide (p ∈ filePaths) then None else hgStatusCache s !! p)
        /\ hgDiffCache s' !! p =
          (if decide (p ∈ filePaths) then None else hgDiffCache s !! p)
  end.
Proof.
  destruct filePaths as [|q l]; [apply _clearClientCache_all|].
  intros s' p.
  by destruct (_clearClientCache_paths (q :: l) s p) as (H1 & H2 & _).
Qed.

(** ** Mutating operations *)

Lemma _clearOnSuccessExit_cleared (filePaths : list string)
  (messages : list LegacyProcessMessage) (s : SharedMembers) :
  caches_cleared filePaths s
  \/ existsb (fun m => match m with Exit (Some 0) _ => true | _ => false end)
            messages = true ->
  caches_cleared filePaths
    (foldl (fun acc m => _clearOnSuccessExit m filePaths acc) s messages).
Proof.
  revert s. induction messages as [|m l IH]; intros s H; simpl.
  - by destruct H.
  - apply IH. simpl in H.
    destruct m as [| |[[| |]|] ?|]; simpl in *;
      try (left; apply _clearClientCache_cleared); destruct H; auto.
Qed.

Lemma service_promise_frame {A} (c : ServiceCall) (answer : Rx.PromiseRun A)
  (s : SharedMembers) :
  let s' := (service_promise c answer s).2 in
  hgStatusCache s' = hgStatusCache s /\ hgDiffCache s' = hgDiffCache s
  /\ fileContentsAtHead s' = fileContentsAtHead s /\ emitted s' = emitted s.
Proof. simpl. rewrite emitted_effect, app_nil_r. done. Qed.

Lemma service_frame {A} (c : ServiceCall) (answer : Rx.Run A) (s : SharedMembers) :
  let s' := (service c answer s).2 in
  hgStatusCache s' = hgStatusCache s /\ hgDiffCache s' = hgDiffCache s
  /\ fileContentsAtHead s' = fileContentsAtHead s /\ emitted s' = emitted s.
Proof. simpl. rewrite emitted_effect, app_nil_r. done. Qed.

(** C1, as the client has it: [commit] and [amend] invalidate the caches
    when the backend reports an exit with code 0; [revert],
    [checkoutReference], [rebase], [pull] and the bookmark mutations hand the
    call to the backend and leave the caches and the emitter alone. *)
Theorem invalidation_on_success (svc : HgService.t) (op : Operation)
  (s : SharedMembers) :
  (invoke svc op s).1 = true ->
  let s' := (invoke svc op s).2 in
  match op with
  | Commit _ filePaths | Amend _ _ filePaths => caches_cleared filePaths s'
  | _ =>
      hgStatusCache s' = hgStatusCache s /\ hgDiffCache s' = hgDiffCache s
      /\ fileContentsAtHead s' = fileContentsAtHead s /\ emitted s' = emitted s
  end.
Proof.
  intros Hok. destruct op.
  - exact (_clearOnSuccessExit_cleared filePaths _ _ (or_intror Hok)).
  - exact (_clearOnSuccessExit_cleared filePaths _ _ (or_intror Hok)).
  - exact (service_promise_frame (revert_ filePaths toRevision)
             (HgService.revert svc filePaths toRevision) s).
  - exact (service_frame (checkout_ reference create)
             (HgService.checkout svc reference create) s).
  - exact (service_frame (rebase_ destination source)
             (HgService.rebase svc destination source) s).
  - exact (service_frame (pull_ options) (HgService.pull svc options) s).
  - exact (service_promise_frame (createBookmark_ name revision)
             (HgService.createBookmark svc name revision) s).
  - exact (service_promise_frame (deleteBookmark_ name)
             (HgService.deleteBookmark svc name) s).
  - exact (service_promise_frame (renameBookmark_ name nextName)
             (HgService.renameBookmark svc name nextName) s).
Qed.

(** ** Destroy *)

Lemma destroyed_stable : stable destroyed.
Proof.
  split; try (intros; assumption); try (right; intros; assumption).
  - by intros s [_ H].
  - by intros s [H _].
Qed.

Section DestroyFacts.

Variable StatusCodeIdToNumber : string -> Z.
Variable workingDirectory : Directory.

Lemma step_disposed (svc : HgService.t) (a : Action) (s : SharedMembers) :
  subscriptions_disposed s = true -> held_by_subscriptions a = true ->
  step StatusCodeIdToNumber workingDirectory svc a s = s.
Proof. intros Hd Ha. destruct a; try done; simpl; unfold subscribe; by rewrite Hd. Qed.

(** C7: on a client that is not destroyed, [destroy] raises the flag, emits
    [did-destroy] once, disposes the subscriptions and empties the two caches
    keyed by revision; a second [destroy] changes nothing and emits nothing;
    whatever happens afterwards, the flag stays raised, the subscriptions
    stay disposed, their pipelines do nothing, and [destroy] remains without
    effect. *)
Theorem destroy_idempotent (s : SharedMembers) :
  isDestroyed s = false ->
  let s1 := destroy s in
  destroy s1 = s1
  /\ emitted s1 = emitted s ++ [did_destroy]
  /\ emitted (destroy s1) = emitted s ++ [did_destroy]
  /\ isDestroyed s1 = true
  /\ subscriptions_disposed s1 = true
  /\ LRU.entries (revisionIdToFileChanges s1) = []
  /\ LRU.entries (fileContentsAtRevisionIds s1) = []
  /\ forall actions,
      let s2 := run StatusCodeIdToNumber workingDirectory actions s1 in
      isDestroyed s2 = true /\ subscriptions_disposed s2 = true
      /\ destroy s2 = s2
      /\ forall svc a, held_by_subscriptions a = true ->
                       step StatusCodeIdToNumber workingDirectory svc a s2 = s2.
Proof.
  intros Hlive s1.
  assert (Hd : destroyed s1) by (subst s1; unfold destroy; by rewrite Hlive).
  assert (He : emitted s1 = emitted s ++ [did_destroy]).
  { subst s1. unfold destroy. rewrite Hlive. unfold emitted. simpl.
    by rewrite omap_app. }
  assert (H1 : destroy s1 = s1) by (unfold destroy; by rewrite (proj1 Hd)).
  repeat split; try apply Hd; try done.
  - by rewrite H1.
  - subst s1. unfold destroy. by rewrite Hlive.
  - subst s1. unfold destroy. by rewrite Hlive.
  - by apply (run_stable _ _ destroyed destroyed_stable).
  - by apply (run_stable _ _ destroyed destroyed_stable).
  - unfold destroy.
    by rewrite (proj1 (run_stable _ _ destroyed destroyed_stable actions s1 Hd)).
  - intros svc a Ha. apply step_disposed; [|done].
    by apply (run_stable _ _ destroyed destroyed_stable).
Qed.

End DestroyFacts.

(** ** The status pipelines *)

Section PipelineFacts.

Variable StatusCodeIdToNumber : string -> Z.
Variable workingDirectory : Directory.

Lemma statusChanges_next_frame (ch : Channel) (l : list (gmap string Z))
  (s : SharedMembers) :
  let s' := foldl (fun acc a => statusChanges_next ch a acc) s l in
  endedPipelines s' = endedPipelines s /\ isFetching s' = isFetching s.
Proof.
  revert s. induction l as [|m l IH]; intros s; [done|].
  destruct (IH (statusChanges_next ch m s)) as [H1 H2]. simpl. rewrite H1, H2.
  unfold statusChanges_next, emit, isFetching.
  destruct ch; simpl; try (rewrite omap_app, app_nil_r; done).
  destruct (subscriptions_disposed s); simpl; rewrite !omap_app, ?app_nil_r; done.
Qed.

Lemma statusTrigger_contained (svc : HgService.t) (ch : Channel)
  (s : SharedMembers) :
  StatusPipeline ch ∉ endedPipelines s ->
  let r := fetchStatuses_answer svc ch in
  let out := (hgStatusChanges StatusCodeIdToNumber svc ch (Rx.of_ tt) s).1 in
  let s' := step StatusCodeIdToNumber workingDirectory svc (StatusTrigger ch) s in
  Rx.ending out = Rx.Completed
  /\ Rx.emits out =
       ((fun m : gmap string string => StatusCodeIdToNumber <$> m) <$> Rx.emits r)
  /\ (StatusPipeline ch ∉ endedPipelines s')
  /\ isFetching s' = Some false
  /\ (Rx.emits r = [] ->
      hgStatusCache s' = hgStatusCache s /\ emitted s' = emitted s).
Proof.
  intros Hlive r out s'. subst out s'. simpl.
  unfold run_subscription, Rx.do_.
  rewrite bool_decide_eq_false_2 by done.
  rewrite hgStatusChanges_trigger. fold r. simpl.
  match goal with
  | |- context [foldl ?f ?s0 ?l] =>
      destruct (statusChanges_next_frame ch l s0) as [H1 H2]
  end.
  cbv zeta in H1, H2. repeat split; try done.
  - rewrite H1. by destruct (Rx.ending r).
  - rewrite H2. apply isFetching_effect.
  - rewrite H. by destruct (Rx.ending r).
  - rewrite H. simpl. destruct (Rx.ending r); rewrite !emitted_effect, ?app_nil_r; done.
Qed.

Lemma status_pipelines_live_stable : stable status_pipelines_live.
Proof.
  split; try (intros; assumption); try (right; intros; assumption).
  intros p s Hs Hp ch [Heq | Hin]%elem_of_cons; [by apply (Hp ch) | by apply (Hs ch)].
Qed.

(** C5: in every state the client reaches from its construction, the status
    pipelines are still subscribed, and a trigger of one of them, whatever
    the fetch answers, leaves it subscribed, its run completed without an
    error, and false as the last value of [isFetchingPathStatuses]; the
    pipeline emits what the fetch emitted, so a fetch that fails without a
    value changes neither the status cache nor what was emitted.  A failed
    fetch does not end the stream: over [n] triggers the pipeline fetches
    [n] times, raising and lowering the indicator around each fetch and
    logging each failure, and completes only with its triggers; and whatever
    the fetch of the first trigger does, the triggers after it are handled
    from the state it left. *)
Theorem status_fetch_failure_contained (repoPath : string) (subscribed : bool)
  (actions : list (HgService.t * Action)) (svc : HgService.t) (ch : Channel) :
  let s := run StatusCodeIdToNumber workingDirectory actions
               (constructor repoPath subscribed) in
  let r := fetchStatuses_answer svc ch in
  let out := (hgStatusChanges StatusCodeIdToNumber svc ch (Rx.of_ tt) s).1 in
  let s' := step StatusCodeIdToNumber workingDirectory svc (StatusTrigger ch) s in
  (StatusPipeline ch ∉ endedPipelines s)
  /\ Rx.ending out = Rx.Completed
  /\ Rx.emits out =
       ((fun m : gmap string string => StatusCodeIdToNumber <$> m) <$> Rx.emits r)
  /\ (StatusPipeline ch ∉ endedPipelines s')
  /\ isFetching s' = Some false
  /\ (Rx.emits r = [] ->
      hgStatusCache s' = hgStatusCache s /\ emitted s' = emitted s)
  /\ (forall n s0,
        let many := hgStatusChanges StatusCodeIdToNumber svc ch (triggers n) s0 in
        Rx.ending many.1 = Rx.Completed
        /\ Rx.emits many.1 =
             concat (replicate n
                       ((fun m : gmap string string => StatusCodeIdToNumber <$> m)
                          <$> Rx.emits r))
        /\ effects many.2 = effects s0 ++ concat (replicate n (fetch_cycle svc ch))
        /\ hgStatusCache many.2 = hgStatusCache s0)
  /\ (forall (fetchStatuses : Rx.Observable SharedMembers (gmap string string))
             (l : list unit) (s0 : SharedMembers),
        _observeStatus StatusCodeIdToNumber
          (Rx.from (Rx.mkRun (tt :: l) Rx.Completed)) fetchStatuses s0 =
        let '(r1, s1) :=
          _observeStatus StatusCodeIdToNumber (Rx.of_ tt) fetchStatuses s0 in
        let '(r2, s2) :=
          _observeStatus StatusCodeIdToNumber
            (Rx.from (Rx.mkRun l Rx.Completed)) fetchStatuses s1 in
        (Rx.mkRun (Rx.emits r1 ++ Rx.emits r2) (Rx.ending r2), s2)).
Proof.
  intros s r out s'.
  assert (Hlive : status_pipelines_live s).
  { apply (run_stable _ _ status_pipelines_live status_pipelines_live_stable).
    intros ch'. apply not_elem_of_nil. }
  split; [apply Hlive|].
  destruct (statusTrigger_contained svc ch s (Hlive ch)) as (H1 & H2 & H3 & H4 & H5).
  repeat (split; [done|]). split.
  - intros n s0. apply hgStatusChanges_triggers.
  - intros fetchStatuses l s0. apply _observeStatus_cons.
Qed.

(** ** The bookmarks pipeline *)

Lemma fetchBookmarks_fails_run (p : Rx.PromiseRun (list BookmarkInfo)) :
  fetchBookmarks_fails p ->
  Rx.fromPromise_timeout FETCH_BOOKMARKS_TIMEOUT p = Rx.mkRun [] Rx.Errored.
Proof.
  unfold fetchBookmarks_fails. destruct p as [ms a|ms|]; simpl; try done.
  by destruct (ms <? FETCH_BOOKMARKS_TIMEOUT).
Qed.

(** C2, as the client has it: when the first fetch of the bookmarks and
    both retries fail, the value of [bookmarks], the list and the loading
    flag, stays what it was, the error is logged and the pipeline stays
    subscribed. *)
Theorem bookmarks_kept_when_fetch_fails (svc : HgService.t) (s : SharedMembers) :
  (forall i, (i < 3)%nat -> fetchBookmarks_fails (HgService.fetchBookmarks svc i)) ->
  let s' := step StatusCodeIdToNumber workingDirectory svc BookmarksTrigger s in
  bookmarks s' = bookmarks s
  /\ endedPipelines s' = endedPipelines s
  /\ (subscriptions_disposed s = false -> BookmarksPipeline ∉ endedPipelines s ->
      effects s' = effects s ++ [Service fetchBookmarks_; Service fetchBookmarks_;
                                 Service fetchBookmarks_;
                                 LogError "failed to fetch bookmarks info:"]).
Proof.
  intros Hfail. simpl. unfold subscribe, run_subscription.
  destruct (subscriptions_disposed s); [done|].
  destruct (bool_decide _) eqn:E; [by apply bool_decide_eq_true in E|].
  unfold bookmarksUpdates, Rx.do_, Rx.switchMap, Rx.catch, Rx.of_, service. simpl.
  rewrite !fetchBookmarks_fails_run by (apply Hfail; lia). simpl.
  repeat split. intros _ _. by rewrite <- !app_assoc.
Qed.

End PipelineFacts.

(** ** The bounded caches of the client *)

Section CacheFacts.

Variable StatusCodeIdToNumber : string -> Z.
Variable workingDirectory : Directory.

Lemma constructor_within_capacity (repoPath : string) (subscribed : bool) :
  within_capacity (constructor repoPath subscribed).
Proof. unfold within_capacity, LRU.length. simpl. repeat split; lia. Qed.

(** C9: in every state the client reaches from its construction, the cache
    of file changes by revision holds at most 100 entries, the cache of file
    contents by revision at most 20 and the cache of file contents at head
    at most 30, these being their capacities; and inserting a new key into
    one of them when it is full drops its least recently used entry, and
    only that one. *)
Theorem bounded_caches_within_capacity (repoPath : string) (subscribed : bool)
  (actions : list (HgService.t * Action)) :
  let s := run StatusCodeIdToNumber workingDirectory actions
               (constructor repoPath subscribed) in
  (LRU.max (revisionIdToFileChanges s) = 100%nat
   /\ (LRU.length (revisionIdToFileChanges s) <= 100)%nat)
  /\ (LRU.max (fileContentsAtRevisionIds s) = 20%nat
      /\ (LRU.length (fileContentsAtRevisionIds s) <= 20)%nat)
  /\ (LRU.max (fileContentsAtHead s) = 30%nat
      /\ (LRU.length (fileContentsAtHead s) <= 30)%nat)
  /\ (forall k v,
        LRU.peek k (revisionIdToFileChanges s) = None ->
        LRU.length (revisionIdToFileChanges s) = 100%nat ->
        LRU.entries (LRU.set k v (revisionIdToFileChanges s)) =
        (k, v) :: removelast (LRU.entries (revisionIdToFileChanges s)))
  /\ (forall k v,
        LRU.peek k (fileContentsAtRevisionIds s) = None ->
        LRU.length (fileContentsAtRevisionIds s) = 20%nat ->
        LRU.entries (LRU.set k v (fileContentsAtRevisionIds s)) =
        (k, v) :: removelast (LRU.entries (fileContentsAtRevisionIds s)))
  /\ (forall k v,
        LRU.peek k (fileContentsAtHead s) = None ->
        LRU.length (fileContentsAtHead s) = 30%nat ->
        LRU.entries (LRU.set k v (fileContentsAtHead s)) =
        (k, v) :: removelast (LRU.entries (fileContentsAtHead s))).
Proof.
  intros s.
  destruct (run_stable StatusCodeIdToNumber workingDirectory within_capacity
              within_capacity_stable actions (constructor repoPath subscribed)
              (constructor_within_capacity repoPath subscribed))
    as (M1 & M2 & M3 & L1 & L2 & L3).
  fold s in M1, M2, M3, L1, L2, L3.
  repeat split; try done; intros k v Hk Hfull;
    apply LRU_set_evicts; try done; lia.
Qed.

(** ** The head revision *)

Lemma head_cached_stable (h : string) : stable (head_cached h).
Proof.
  split; try (intros; assumption).
  left. intros s Hs. unfold head_cached in Hs. by rewrite Hs.
Qed.

(** Once fetched, the head revision is never fetched again, whatever
    happens to the client. *)
Lemma currentHeadId_kept (h : string) (actions : list (HgService.t * Action))
  (s : SharedMembers) :
  currentHeadId s = Some h ->
  currentHeadId (run StatusCodeIdToNumber workingDirectory actions s) = Some h.
Proof. apply (run_stable _ _ (head_cached h) (head_cached_stable h)). Qed.

(** A trigger of the revisions pipeline empties the head-content cache and
    the diff cache and keeps the head revision. *)
Lemma shouldRevisionsUpdate_next_caches (s : SharedMembers) :
  let s' := shouldRevisionsUpdate_next s in
  LRU.entries (fileContentsAtHead s') = [] /\ hgDiffCache s' = ∅
  /\ currentHeadId s' = currentHeadId s.
Proof. done. Qed.

(** ** The guard of the diff updates *)

Lemma pathsToFetch_of_skips (aPath : string) (s : SharedMembers) :
  aPath ∈ hgDiffCacheFilesUpdating s ->
  pathsToFetch_of workingDirectory [aPath] s = ([], s).
Proof.
  intros Hin. simpl. destruct (negb _); [done|].
  by rewrite bool_decide_eq_true_2.
Qed.

(** A path that is being updated is skipped: no call reaches the backend
    and the result is empty. *)
Lemma _updateDiffInfo_skips (svc : HgService.t) (aPath : string) (s : SharedMembers) :
  aPath ∈ hgDiffCacheFilesUpdating s ->
  _updateDiffInfo workingDirectory svc [aPath] s = (Rx.mkRun [∅] Rx.Completed, s).
Proof.
  intros Hin. unfold _updateDiffInfo. by rewrite pathsToFetch_of_skips.
Qed.

Lemma foldl_difference_not_elem (l : list string) (u : gset string) (p : string) :
  p ∈ l \/ p ∉ u ->
  p ∉ foldl (fun updating pathToFetch => updating ∖ {[pathToFetch]}) u l.
Proof.
  revert u. induction l as [|q l IH]; intros u Hp; simpl.
  - destruct Hp as [Hp | Hp]; [by apply elem_of_nil in Hp | done].
  - apply IH. destruct (decide (p = q)) as [-> | Hne].
    + right. intros [_ Hq]%elem_of_difference. apply Hq. by apply elem_of_singleton.
    + destruct Hp as [Hp | Hp].
      * left. by apply elem_of_cons in Hp as [? | ?].
      * right. by intros [? _]%elem_of_difference.
Qed.

(** When the batch delivers its diffs, its paths leave the guard. *)
Lemma _updateDiffInfo_do_releases (pathsToFetch : list string)
  (pathsToDiffInfo : gmap string DiffInfo) (s : SharedMembers) (p : string) :
  p ∈ pathsToFetch ->
  p ∉ hgDiffCacheFilesUpdating (_updateDiffInfo_do pathsToFetch pathsToDiffInfo s).
Proof. intros Hp. simpl. apply foldl_difference_not_elem. by left. Qed.

End CacheFacts.

(** ** The properties on concrete clients *)

Lemma getPathStatus_clean_on_miss_witness :
  getCachedPathStatus sample_codes (Some "/repo/c.txt") refreshed_client = 2
  /\ getPathStatus sample_codes "/repo/c.txt" refreshed_client = 2.
Proof.
  destruct (getPathStatus_clean_on_miss sample_codes (Some "/repo/c.txt")
              refreshed_client) as [H1 H2].
  - right. vm_compute. reflexivity.
  - split; [exact H1 | exact (H2 "/repo/c.txt" eq_refl)].
Defined.

Lemma predicates_on_cache_miss_witness :
  isPathModified sample_codes (Some "/repo/.hg/store") refreshed_client = false
  /\ isPathIgnored sample_codes (Some "/repo/.hg/store") refreshed_client = true.
Proof.
  destruct (predicates_on_cache_miss sample_codes (Some "/repo/.hg/store")
              refreshed_client) as (H1 & _ & _ & _ & H5).
  - right. vm_compute. reflexivity.
  - split; [exact H1|]. apply H5. exists "/repo/.hg/store".
    split; [reflexivity|]. split; [discriminate|].
    right. exists "store". reflexivity.
Defined.

Lemma invalidation_on_success_witness :
  caches_cleared ["/repo/a.txt"]
    (invoke (working_service "A") (Commit "message" ["/repo/a.txt"])
            refreshed_client).2.
Proof.
  apply (invalidation_on_success (working_service "A")
           (Commit "message" ["/repo/a.txt"]) refreshed_client).
  vm_compute. reflexivity.
Defined.

(** [revert] succeeds on a client that holds a status for the reverted
    path, and the status is still there afterwards. *)
Lemma invalidation_on_success_counterexample :
  ~ (forall svc op s,
       (invoke svc op s).1 = true ->
       caches_cleared (filePaths_of op) (invoke svc op s).2).
Proof.
  intros H.
  specialize (H (working_service "A") (Revert ["/repo/a.txt"] None)
                refreshed_client eq_refl "/repo/a.txt").
  destruct H as [H _]; [by left|]. vm_compute in H. discriminate H.
Qed.

Lemma bookmarks_kept_when_fetch_fails_witness :
  bookmarks (step sample_ids sample_directory failing_service BookmarksTrigger
                  fresh_client)
  = Bookmarks.mk true [].
Proof.
  apply (bookmarks_kept_when_fetch_fails sample_ids sample_directory
           failing_service fresh_client).
  intros i Hi. vm_compute. reflexivity.
Defined.

(** On a client that never got its bookmarks, three failed fetches leave
    the loading flag raised. *)
Lemma bookmarks_loading_flag_counterexample :
  ~ (forall svc s,
       (forall i, (i < 3)%nat ->
                  fetchBookmarks_fails (HgService.fetchBookmarks svc i)) ->
       let s' := step sample_ids sample_directory svc BookmarksTrigger s in
       Bookmarks.bookmarks (bookmarks s') = Bookmarks.bookmarks (bookmarks s)
       /\ Bookmarks.isLoading (bookmarks s') = false).
Proof.
  intros H. specialize (H failing_service fresh_client).
  destruct H as [_ H]; [intros i Hi; vm_compute; reflexivity|].
  vm_compute in H. discriminate H.
Qed.

Lemma status_fetch_failure_contained_witness :
  isFetching (step sample_ids sample_directory failing_service
                   (StatusTrigger Uncommitted) refreshed_client) = Some false
  /\ hgStatusCache (step sample_ids sample_directory failing_service
                         (StatusTrigger Uncommitted) refreshed_client)
     = hgStatusCache refreshed_client
  /\ effects (hgStatusChanges sample_ids failing_service Uncommitted (triggers 2)
                              fresh_client).2
     = [IsFetchingPathStatuses true; Service fetchStatuses_;
        LogError "HgService cannot fetch statuses"; IsFetchingPathStatuses false;
        IsFetchingPathStatuses true; Service fetchStatuses_;
        LogError "HgService cannot fetch statuses"; IsFetchingPathStatuses false].
Proof.
  destruct (status_fetch_failure_contained sample_ids sample_directory
              "/repo/.hg" true
              [(working_service "A", StatusTrigger Uncommitted)]
              failing_service Uncommitted)
    as (_ & _ & _ & _ & H4 & H5 & H6 & _).
  split; [exact H4|]. split; [apply H5; reflexivity|].
  destruct (H6 2%nat fresh_client) as (_ & _ & H7 & _). exact H7.
Defined.

Lemma destroy_idempotent_witness :
  destroy (destroy refreshed_client) = destroy refreshed_client
  /\ emitted (destroy (destroy refreshed_client))
     = [did_change_statuses; did_destroy].
Proof.
  destruct (destroy_idempotent sample_ids sample_directory refreshed_client)
    as (H1 & _ & H3 & _).
  - vm_compute. reflexivity.
  - split; [exact H1 | exact H3].
Defined.

Lemma bounded_caches_within_capacity_witness :
  let s := run sample_ids sample_directory thirty_files fresh_client in
  LRU.length (fileContentsAtHead s) = 30%nat
  /\ LRU.keys (LRU.set "/repo/new" "old" (fileContentsAtHead s))
     = "/repo/new" :: removelast (LRU.keys (fileContentsAtHead s)).
Proof.
  intros s.
  destruct (bounded_caches_within_capacity sample_ids sample_directory
              "/repo/.hg" true thirty_files) as (_ & _ & _ & _ & _ & H).
  fold fresh_client in H. fold s in H.
  assert (Hfull : LRU.length (fileContentsAtHead s) = 30%nat)
    by (vm_compute; reflexivity).
  split; [exact Hfull|].
  unfold LRU.keys. rewrite (H "/repo/new" "old"); [|vm_compute; reflexivity|exact Hfull].
  vm_compute. reflexivity.
Defined.

(** C3 on a concrete client: the head revision A is cached by a first diff
    update; the head moves to B and the revisions pipeline fires, which
    empties the head-content cache and the diff cache but keeps A; the next
    diff update does not ask for the head revision and fetches the content
    of the file at A. *)
Example stale_head_after_revision_change :
  let s1 := step sample_ids sample_directory (working_service "A")
                 (DiffStatsFile "/repo/a.txt") fresh_client in
  let s2 := step sample_ids sample_directory (working_service "B")
                 RevisionsTrigger s1 in
  let s3 := step sample_ids sample_directory (working_service "B")
                 (DiffStatsFile "/repo/a.txt") s2 in
  currentHeadId s1 = Some "A"
  /\ LRU.entries (fileContentsAtHead s2) = []
  /\ hgDiffCache s2 = ∅
  /\ currentHeadId s2 = Some "A"
  /\ drop (length (effects s2)) (effects s3)
     = [Service (fetchFileContentAtRevision_ "/repo/a.txt" "A");
        Emit did_change_statuses]
  /\ currentHeadId s3 = Some "A".
Proof. vm_compute. repeat split; reflexivity. Qed.

(** C4 on a concrete client: a diff update whose backend cannot tell the
    head revision, by failing or by answering null, leaves its path in the
    guard, and the next update of that path, with a working backend, is
    skipped without a call. *)
Example guard_kept_after_failed_batch :
  let failed := _updateDiffInfo sample_directory failing_service
                                ["/repo/a.txt"] fresh_client in
  let headless := _updateDiffInfo sample_directory headless_service
                                  ["/repo/a.txt"] fresh_client in
  Rx.ending failed.1 = Rx.Errored
  /\ "/repo/a.txt" ∈ hgDiffCacheFilesUpdating failed.2
  /\ _updateDiffInfo sample_directory (working_service "A") ["/repo/a.txt"] failed.2
     = (Rx.mkRun [∅] Rx.Completed, failed.2)
  /\ headless.1 = Rx.mkRun [∅] Rx.Completed
  /\ "/repo/a.txt" ∈ hgDiffCacheFilesUpdating headless.2
  /\ _updateDiffInfo sample_directory (working_service "A") ["/repo/a.txt"] headless.2
     = (Rx.mkRun [∅] Rx.Completed, headless.2).
Proof.
  intros failed headless.
  assert (H1 : "/repo/a.txt" ∈ hgDiffCacheFilesUpdating failed.2)
    by (vm_compute; reflexivity).
  assert (H2 : "/repo/a.txt" ∈ hgDiffCacheFilesUpdating headless.2)
    by (vm_compute; reflexivity).
  split; [vm_compute; reflexivity|]. split; [exact H1|].
  split; [by apply _updateDiffInfo_skips|].
  split; [vm_compute; reflexivity|]. split; [exact H2|].
  by apply _updateDiffInfo_skips.
Qed.

(** * Further properties of the client *)

(** ** Reading a cached status *)

Section CachedStatusFacts.

Variable StatusCodeNumber : StatusCodeNumberTable.

(** X1: on a path with a cached status other than zero, each predicate tells
    whether the status is its own code or codes, and [getCachedPathStatus]
    answers the cached status. *)
Theorem predicates_on_cached_status (p : string) (st : Z) (s : SharedMembers) :
  p <> "" -> hgStatusCache s !! p = Some st -> st <> 0 ->
  (isPathModified StatusCodeNumber (Some p) s = true <->
     st = MODIFIED StatusCodeNumber)
  /\ (isPathNew StatusCodeNumber (Some p) s = true <->
        st = ADDED StatusCodeNumber \/ st = UNTRACKED StatusCodeNumber)
  /\ (isPathAdded StatusCodeNumber (Some p) s = true <-> st = ADDED StatusCodeNumber)
  /\ (isPathUntracked StatusCodeNumber (Some p) s = true <->
        st = UNTRACKED StatusCodeNumber)
  /\ (isPathIgnored StatusCodeNumber (Some p) s = true <->
        st = IGNORED StatusCodeNumber)
  /\ getCachedPathStatus StatusCodeNumber (Some p) s = st.
Proof.
  intros Hp Hst Hnz.
  unfold isPathModified, isPathNew, isPathAdded, isPathUntracked, isPathIgnored,
    getCachedPathStatus, hgStatusCache_get, not_string.
  rewrite bool_decide_eq_false_2 by done. simpl. rewrite Hst. simpl.
  rewrite (proj2 (Z.eqb_neq st 0) Hnz). simpl.
  unfold isStatusModified, isStatusNew, isStatusAdded, isStatusUntracked,
    isStatusIgnored.
  rewrite orb_true_iff, !bool_decide_eq_true.
  repeat split; try (intros [= ->]; done); try (intros ->; done).
  - intros [[= ->] | [= ->]]; auto.
  - intros [-> | ->]; auto.
Qed.

(** A path reads as the public getters see it: its status, its diff
    statistics and its line diffs. *)
Lemma reads_of_cleared (filePaths : list string) (p : string) (s : SharedMembers) :
  caches_cleared filePaths s -> filePaths = [] \/ p ∈ filePaths ->
  getPathStatus StatusCodeNumber p s = CLEAN StatusCodeNumber
  /\ getDiffStats (Some p) s = (0, 0)
  /\ getLineDiffs (Some p) s = [].
Proof.
  intros Hc Hp.
  assert (H : hgStatusCache s !! p = None /\ hgDiffCache s !! p = None).
  { destruct filePaths as [|q l].
    - destruct Hc as (-> & -> & _). by rewrite !lookup_empty.
    - destruct Hp as [Hp | Hp]; [done | by apply Hc]. }
  destruct H as [H1 H2].
  unfold getPathStatus, getCachedPathStatus, getDiffStats, getLineDiffs,
    hgStatusCache_get.
  destruct (not_string (Some p)); [done|]. simpl. by rewrite H1, H2.
Qed.

(** X4: after a [commit] or an [amend] that the backend reports as exited
    with code 0, each of the given paths, or every path when none was given,
    reads as clean, with no added or deleted line and no line diff. *)
Theorem reads_after_successful_commit (svc : HgService.t) (op : Operation)
  (filePaths : list string) (p : string) (s : SharedMembers) :
  (exists message, op = Commit message filePaths)
  \/ (exists message amendMode, op = Amend message amendMode filePaths) ->
  (invoke svc op s).1 = true ->
  filePaths = [] \/ p ∈ filePaths ->
  let s' := (invoke svc op s).2 in
  getPathStatus StatusCodeNumber p s' = CLEAN StatusCodeNumber
  /\ getDiffStats (Some p) s' = (0, 0)
  /\ getLineDiffs (Some p) s' = [].
Proof.
  intros Hop Hok Hp s'. apply (reads_of_cleared filePaths); [|done].
  destruct Hop as [[message ->] | (message & amendMode & ->)];
    exact (_clearOnSuccessExit_cleared filePaths _ _ (or_intror Hok)).
Qed.

End CachedStatusFacts.

(** ** Operations that do not succeed *)

Lemma _clearOnSuccessExit_kept (filePaths : list string)
  (messages : list LegacyProcessMessage) (s : SharedMembers) :
  existsb (fun m => match m with Exit (Some 0) _ => true | _ => false end)
          messages = false ->
  foldl (fun acc m => _clearOnSuccessExit m filePaths acc) s messages = s.
Proof.
  revert s. induction messages as [|m l IH]; intros s H; simpl in *; [done|].
  apply orb_false_iff in H as [Hm Hl].
  destruct m as [| |[[| |]|] ?|]; simpl in *; try done; by apply IH.
Qed.

(** X5: an operation that does not succeed leaves the status cache, the
    diff cache and the head-content cache as they were and emits nothing;
    for [commit] and [amend] not succeeding means that no message is an exit
    with code 0. *)
Theorem caches_kept_without_success (svc : HgService.t) (op : Operation)
  (s : SharedMembers) :
  (invoke svc op s).1 = false ->
  let s' := (invoke svc op s).2 in
  hgStatusCache s' = hgStatusCache s /\ hgDiffCache s' = hgDiffCache s
  /\ fileContentsAtHead s' = fileContentsAtHead s /\ emitted s' = emitted s.
Proof.
  intros Hko. destruct op; simpl in *;
    try (rewrite _clearOnSuccessExit_kept by done; simpl);
    rewrite emitted_effect, app_nil_r; done.
Qed.

(** ** Refreshing the statuses *)

Section RefreshFacts.

Variable StatusCodeNumber : StatusCodeNumberTable.
Variable StatusCodeIdToNumber : string -> Z.
Variable workingDirectory : Directory.

(** X2: a trigger of the uncommitted pipeline whose fetch answers one
    snapshot replaces the status cache by the snapshot, its codes turned
    into numbers, and emits [did-change-statuses]; afterwards a path reads
    as the number of its code in the snapshot, and as clean when the
    snapshot has no code for it or a code whose number is zero. *)
Theorem status_cache_follows_snapshot (svc : HgService.t)
  (snapshot : gmap string string) (s : SharedMembers) :
  StatusPipeline Uncommitted ∉ endedPipelines s ->
  subscriptions_disposed s = false ->
  HgService.fetchStatuses svc = Rx.mkRun [snapshot] Rx.Completed ->
  let s' := step StatusCodeIdToNumber workingDirectory svc
                 (StatusTrigger Uncommitted) s in
  hgStatusCache s' = StatusCodeIdToNumber <$> snapshot
  /\ emitted s' = emitted s ++ [did_change_statuses]
  /\ forall p, p <> "" ->
       getPathStatus StatusCodeNumber p s' =
       match snapshot !! p with
       | Some id =>
           if StatusCodeIdToNumber id =? 0 then CLEAN StatusCodeNumber
           else StatusCodeIdToNumber id
       | None => CLEAN StatusCodeNumber
       end.
Proof.
  intros Hlive Hsub Hr s'. subst s'. unfold step, run_subscription, Rx.do_.
  rewrite bool_decide_eq_false_2 by done.
  rewrite hgStatusChanges_trigger. simpl. rewrite Hr. simpl.
  unfold statusChanges_next. simpl. rewrite Hsub. simpl.
  split; [done|]. split.
  - unfold emitted. simpl. rewrite !omap_app. simpl. by rewrite !app_nil_r.
  - intros p Hp. unfold getPathStatus, getCachedPathStatus, not_string,
      hgStatusCache_get.
    rewrite bool_decide_eq_false_2 by done. simpl. rewrite lookup_fmap.
    destruct (snapshot !! p) as [id|]; simpl; [|done].
    by destruct (StatusCodeIdToNumber id =? 0).
Qed.

Lemma statusChanges_next_kept (ch : Channel) (l : list (gmap string Z))
  (s : SharedMembers) :
  ch <> Uncommitted \/ subscriptions_disposed s = true ->
  let s' := foldl (fun acc a => statusChanges_next ch a acc) s l in
  hgStatusCache s' = hgStatusCache s /\ emitted s' = emitted s
  /\ subscriptions_disposed s' = subscriptions_disposed s.
Proof.
  revert s. induction l as [|m l IH]; intros s H; [done|].
  assert (Hm : hgStatusCache (statusChanges_next ch m s) = hgStatusCache s
               /\ emitted (statusChanges_next ch m s) = emitted s
               /\ subscriptions_disposed (statusChanges_next ch m s)
                  = subscriptions_disposed s).
  { unfold statusChanges_next.
    destruct ch; simpl; try (rewrite emitted_effect, app_nil_r; done).
    destruct H as [H | H]; [done|]. rewrite H.
    by rewrite emitted_effect, app_nil_r. }
  destruct Hm as (H1 & H2 & H3).
  destruct (IH (statusChanges_next ch m s)) as (H4 & H5 & H6).
  { destruct H as [H | H]; [by left | right; by rewrite H3]. }
  simpl. by rewrite H4, H5, H6.
Qed.

(** X3: the status cache is written by the uncommitted pipeline only, and
    only while the subscriptions are not disposed: a trigger of the stack or
    head pipeline, and any trigger after [destroy], leaves the status cache
    as it was and emits nothing, whatever the fetch answers. *)
Theorem status_cache_kept_by_other_channels (svc : HgService.t) (ch : Channel)
  (s : SharedMembers) :
  ch <> Uncommitted \/ subscriptions_disposed s = true ->
  let s' := step StatusCodeIdToNumber workingDirectory svc (StatusTrigger ch) s in
  hgStatusCache s' = hgStatusCache s /\ emitted s' = emitted s.
Proof.
  intros H. simpl. unfold run_subscription, Rx.do_.
  destruct (bool_decide _); [done|].
  rewrite hgStatusChanges_trigger. simpl.
  match goal with
  | |- context [foldl ?f ?s0 ?l] =>
      destruct (statusChanges_next_kept ch l s0) as (H1 & H2 & _)
  end.
  { destruct H as [H | H]; [by left | right].
    destruct (Rx.ending _); exact H. }
  cbv zeta in H1, H2. rewrite H1, H2.
  destruct (Rx.ending _); simpl; rewrite !emitted_effect, ?app_nil_r; done.
Qed.

(** X6: when the revisions pipeline fires on a client whose subscriptions
    are live, every path reads with no added or deleted line and no line
    diff, the statuses are kept, and the revisions cache is asked to
    refresh. *)
Theorem diffs_dropped_on_revisions_trigger (svc : HgService.t) (s : SharedMembers) :
  subscriptions_disposed s = false ->
  RevisionsPipeline ∉ endedPipelines s ->
  let s' := step StatusCodeIdToNumber workingDirectory svc RevisionsTrigger s in
  (forall filePath, getDiffStats filePath s' = (0, 0) /\ getLineDiffs filePath s' = [])
  /\ hgStatusCache s' = hgStatusCache s
  /\ effects s' = effects s ++ [RefreshRevisions].
Proof.
  intros Hsub Hlive. simpl. unfold subscribe, run_subscription. rewrite Hsub.
  rewrite bool_decide_eq_false_2 by done. simpl.
  split; [|done]. intros filePath. unfold getDiffStats, getLineDiffs.
  destruct (not_string filePath); [done|]. simpl.
  destruct filePath as [p|]; simpl; [|done]. by rewrite lookup_empty.
Qed.

End RefreshFacts.

(** ** Updating the diffs *)

Section DiffFacts.

Variable workingDirectory : Directory.

Lemma pathsToFetch_of_state (filePaths : list string) (s : SharedMembers) :
  (pathsToFetch_of workingDirectory filePaths s).2 =
  set_hgDiffCacheFilesUpdating
    (hgDiffCacheFilesUpdating s
       ∪ list_to_set (pathsToFetch_of workingDirectory filePaths s).1) s
  \/ ((pathsToFetch_of workingDirectory filePaths s).1 = []
      /\ (pathsToFetch_of workingDirectory filePaths s).2 = s).
Proof.
  revert s. induction filePaths as [|aPath rest IH]; intros s; simpl; [by right|].
  destruct (negb _); [apply IH|].
  destruct (bool_decide _); [apply IH|].
  set (s1 := set_hgDiffCacheFilesUpdating _ s).
  specialize (IH s1). destruct (pathsToFetch_of workingDirectory rest s1) as [kept s2].
  simpl in *. left.
  assert (Hu : forall X : gset string,
             ({[aPath]} ∪ hgDiffCacheFilesUpdating s) ∪ X
             = hgDiffCacheFilesUpdating s ∪ ({[aPath]} ∪ X)).
  { intros X. apply set_eq. intros x. rewrite !elem_of_union. tauto. }
  destruct IH as [-> | [-> ->]]; subst s1; simpl; rewrite <- Hu; [done|].
  f_equal. apply set_eq. intros x. rewrite !elem_of_union, elem_of_empty. tauto.
Qed.

Lemma pathsToFetch_of_frame (filePaths : list string) (s : SharedMembers) :
  let s' := (pathsToFetch_of workingDirectory filePaths s).2 in
  hgDiffCache s' = hgDiffCache s /\ effects s' = effects s
  /\ hgDiffCacheFilesToClear s' = hgDiffCacheFilesToClear s
  /\ currentHeadId s' = currentHeadId s.
Proof.
  by destruct (pathsToFetch_of_state filePaths s) as [-> | [_ ->]].
Qed.

Lemma pathsToFetch_of_kept (filePaths : list string) (s : SharedMembers) (p : string) :
  p ∈ (pathsToFetch_of workingDirectory filePaths s).1 <->
  p ∈ filePaths /\ isPathRelevantToRepository workingDirectory p = true
  /\ p ∉ hgDiffCacheFilesUpdating s.
Proof.
  revert s. induction filePaths as [|aPath rest IH]; intros s; simpl.
  - split; [by intros Hp%elem_of_nil | by intros [Hp%elem_of_nil _]].
  - destruct (isPathRelevantToRepository workingDirectory aPath) eqn:Hrel; simpl.
    + destruct (bool_decide _) eqn:Hin.
      * apply bool_decide_eq_true in Hin. rewrite IH, elem_of_cons.
        split; [tauto|]. intros ([-> | ?] & ? & ?); tauto.
      * apply bool_decide_eq_false in Hin.
        set (s1 := set_hgDiffCacheFilesUpdating _ s).
        specialize (IH s1).
        destruct (pathsToFetch_of workingDirectory rest s1) as [kept s2].
        simpl in *. rewrite !elem_of_cons, IH. subst s1. simpl.
        rewrite elem_of_union, elem_of_singleton.
        destruct (decide (p = aPath)) as [-> | Hne]; [tauto|]. tauto.
    + rewrite IH, elem_of_cons. split; [tauto|].
      intros ([-> | ?] & Hr & ?); [congruence | tauto].
Qed.

Lemma pathsToFetch_of_NoDup (filePaths : list string) (s : SharedMembers) :
  NoDup (pathsToFetch_of workingDirectory filePaths s).1.
Proof.
  revert s. induction filePaths as [|aPath rest IH]; intros s; simpl;
    [constructor|].
  destruct (negb _); [apply IH|]. destruct (bool_decide _); [apply IH|].
  set (s1 := set_hgDiffCacheFilesUpdating _ s).
  pose proof (IH s1) as Hnd. pose proof (pathsToFetch_of_kept rest s1 aPath) as Hk.
  destruct (pathsToFetch_of workingDirectory rest s1) as [kept s2]. simpl in *.
  constructor; [|done]. intros Hin. apply Hk in Hin as (_ & _ & Hout).
  apply Hout. subst s1. simpl. apply elem_of_union_l. by apply elem_of_singleton.
Qed.

(** X7: the filter at the head of [_updateDiffInfo] keeps exactly the given
    paths that are relevant to the repository and not already being updated,
    each one once even when it is given twice, and puts the paths it keeps,
    and no other, into the guard. *)
Theorem pathsToFetch_of_spec (filePaths : list string) (s : SharedMembers) :
  let kept := (pathsToFetch_of workingDirectory filePaths s).1 in
  let s' := (pathsToFetch_of workingDirectory filePaths s).2 in
  NoDup kept
  /\ (forall p, p ∈ kept <->
                p ∈ filePaths
                /\ isPathRelevantToRepository workingDirectory p = true
                /\ p ∉ hgDiffCacheFilesUpdating s)
  /\ hgDiffCacheFilesUpdating s' = hgDiffCacheFilesUpdating s ∪ list_to_set kept
  /\ hgDiffCache s' = hgDiffCache s
  /\ effects s' = effects s.
Proof.
  intros kept s'. split; [apply pathsToFetch_of_NoDup|].
  split; [apply pathsToFetch_of_kept|].
  subst kept s'. destruct (pathsToFetch_of_state filePaths s) as [-> | [-> ->]];
    simpl; repeat split.
  apply set_eq. intros x. rewrite elem_of_union, elem_of_empty. tauto.
Qed.

(** X8: when none of the given paths is both relevant to the repository and
    free of a running update, also when no path is given, [_updateDiffInfo]
    answers one empty map, calls nothing and changes nothing. *)
Theorem _updateDiffInfo_nothing_to_fetch (svc : HgService.t)
  (filePaths : list string) (s : SharedMembers) :
  (forall p, p ∈ filePaths ->
             isPathRelevantToRepository workingDirectory p = false
             \/ p ∈ hgDiffCacheFilesUpdating s) ->
  _updateDiffInfo workingDirectory svc filePaths s = (Rx.mkRun [∅] Rx.Completed, s).
Proof.
  intros Hnone. unfold _updateDiffInfo.
  assert (Hk : (pathsToFetch_of workingDirectory filePaths s).1 = []).
  { apply elem_of_nil_inv. intros p (Hin & Hrel & Hout)%pathsToFetch_of_kept.
    destruct (Hnone p Hin) as [Hn | Hn]; [congruence | done]. }
  destruct (pathsToFetch_of_state filePaths s) as [Hs | [_ Hs]].
  - rewrite Hk in Hs. simpl in Hs.
    destruct (pathsToFetch_of workingDirectory filePaths s) as [kept s1].
    simpl in *. subst kept s1. simpl. f_equal.
    assert (Hu : hgDiffCacheFilesUpdating s ∪ ∅ = hgDiffCacheFilesUpdating s).
    { apply set_eq. intros x. rewrite elem_of_union, elem_of_empty. tauto. }
    rewrite Hu. by destruct s.
  - destruct (pathsToFetch_of workingDirectory filePaths s) as [kept s1].
    simpl in *. by subst kept s1.
Qed.

Lemma foldr_delete_lookup {V} (m : gmap string V) (l : list string) (p : string) :
  foldr delete m l !! p = if decide (p ∈ l) then None else m !! p.
Proof.
  induction l as [|q l IH]; [done|].
  change (delete q (foldr delete m l) !! p =
          if decide (p ∈ q :: l) then None else m !! p).
  destruct (decide (p = q)) as [-> | Hne].
  - by rewrite lookup_delete_eq, (decide_True (P := q ∈ q :: l)) by (by left).
  - rewrite lookup_delete_ne by done. rewrite IH.
    destruct (decide (p ∈ l)) as [Hin | Hout].
    + by rewrite decide_True by (by right).
    + rewrite decide_False; [done|]. by intros [? | ?]%elem_of_cons.
Qed.

(** X9: when a batch delivers its diffs, a path queued for removal is absent
    from the diff cache afterwards, also when the batch brought a diff for
    it; any other path has the diff the batch brought, or else the one it
    had; the queue is emptied and [did-change-statuses] is emitted. *)
Theorem _updateDiffInfo_do_lookup (pathsToFetch : list string)
  (pathsToDiffInfo : gmap string DiffInfo) (s : SharedMembers) (p : string) :
  let s' := _updateDiffInfo_do pathsToFetch pathsToDiffInfo s in
  hgDiffCache s' !! p =
    (if decide (p ∈ hgDiffCacheFilesToClear s) then None
     else match pathsToDiffInfo !! p with
          | Some diffInfo => Some diffInfo
          | None => hgDiffCache s !! p
          end)
  /\ hgDiffCacheFilesToClear s' = ∅
  /\ emitted s' = emitted s ++ [did_change_statuses].
Proof.
  simpl. split; [|split; [done|]].
  - rewrite foldr_delete_lookup.
    destruct (decide (p ∈ elements (hgDiffCacheFilesToClear s))) as [Hin | Hout].
    + rewrite decide_True; [done | by apply elem_of_elements].
    + rewrite decide_False by (by rewrite <- elem_of_elements).
      rewrite lookup_union. by destruct (pathsToDiffInfo !! p), (hgDiffCache s !! p).
  - unfold emitted. simpl. by rewrite omap_app.
Qed.

End DiffFacts.

Section DiffUpdateFacts.

Variable StatusCodeIdToNumber : string -> Z.
Variable workingDirectory : Directory.

Lemma pathsToFetch_of_single (p : string) (s : SharedMembers) :
  isPathRelevantToRepository workingDirectory p = true ->
  p ∉ hgDiffCacheFilesUpdating s ->
  pathsToFetch_of workingDirectory [p] s =
  ([p], set_hgDiffCacheFilesUpdating ({[p]} ∪ hgDiffCacheFilesUpdating s) s).
Proof.
  intros Hrel Hout. simpl. rewrite Hrel. simpl.
  by rewrite bool_decide_eq_false_2.
Qed.

(** X10: the head revision is asked for once: after [_getCurrentHeadId] got
    a head revision from the backend, a second call answers the same
    revision whatever the backend would say, calls nothing and changes
    nothing. *)
Theorem _getCurrentHeadId_memoized (svc svc' : HgService.t) (h : string)
  (s : SharedMembers) :
  currentHeadId s = None ->
  HgService.getHeadId svc = Rx.mkRun [Some h] Rx.Completed ->
  let first := _getCurrentHeadId svc s in
  first.1 = Rx.mkRun [Some h] Rx.Completed
  /\ effects first.2 = effects s ++ [Service getHeadId_]
  /\ _getCurrentHeadId svc' first.2 = (Rx.mkRun [Some h] Rx.Completed, first.2).
Proof.
  intros Hnone Hr. unfold _getCurrentHeadId. rewrite Hnone.
  unfold Rx.do_, service. rewrite Hr. simpl. done.
Qed.

(** X11: when no head revision is cached and the backend has none to give,
    by answering null or by ending without an answer, [_updateDiffInfo]
    leaves the diff cache and the removal queue as they were and emits
    nothing; the only call it can make is the one asking for the head
    revision, so no file content is fetched. *)
Theorem _updateDiffInfo_without_head (svc : HgService.t) (filePaths : list string)
  (s : SharedMembers) :
  currentHeadId s = None ->
  Rx.emits (HgService.getHeadId svc) = []
  \/ Rx.emits (HgService.getHeadId svc) = [None] ->
  let s' := (_updateDiffInfo workingDirectory svc filePaths s).2 in
  hgDiffCache s' = hgDiffCache s
  /\ hgDiffCacheFilesToClear s' = hgDiffCacheFilesToClear s
  /\ emitted s' = emitted s
  /\ (effects s' = effects s \/ effects s' = effects s ++ [Service getHeadId_]).
Proof.
  intros Hnone Hhead s'. subst s'. unfold _updateDiffInfo.
  pose proof (pathsToFetch_of_frame workingDirectory filePaths s)
    as (Hd & He & Hc & Hh).
  destruct (pathsToFetch_of workingDirectory filePaths s) as [kept s1].
  simpl in Hd, He, Hc, Hh.
  destruct (bool_decide _).
  - simpl. rewrite Hd, Hc. unfold emitted. rewrite He. repeat split; try done.
    by left.
  - unfold Rx.switchMap, _getCurrentHeadId, Rx.do_, service. rewrite Hh, Hnone.
    destruct (HgService.getHeadId svc) as [vals e]. simpl in *.
    destruct Hhead as [-> | ->]; simpl; rewrite Hd, Hc; unfold emitted; simpl;
      rewrite omap_app, app_nil_r, He; (repeat split; try done); by right.
Qed.

(** X12: a diff update of one path that is relevant and not being updated,
    with a head revision cached or given by the backend, the content at the
    head cached or given by the backend, and a diff that succeeds, answers
    the parsed diff of the path, stores it in the diff cache unless the path
    is queued for removal, empties the queue, frees the guard and keeps the
    head revision. *)
Theorem _updateDiffInfo_single_path (svc : HgService.t) (p h content diff : string)
  (s : SharedMembers) :
  isPathRelevantToRepository workingDirectory p = true ->
  p ∉ hgDiffCacheFilesUpdating s ->
  currentHeadId s = Some h
  \/ (currentHeadId s = None
      /\ HgService.getHeadId svc = Rx.mkRun [Some h] Rx.Completed) ->
  LRU.peek p (fileContentsAtHead s) = Some content
  \/ (LRU.peek p (fileContentsAtHead s) = None
      /\ HgService.fetchFileContentAtRevision svc p h
         = Rx.mkRun [content] Rx.Completed) ->
  HgService.gitDiffContentAgainstFile svc content p = Rx.mkRun [diff] Rx.Completed ->
  let r := (_updateDiffInfo workingDirectory svc [p] s).1 in
  let s' := (_updateDiffInfo workingDirectory svc [p] s).2 in
  r = Rx.mkRun [{[p := HgService.parseDiff svc diff]}] Rx.Completed
  /\ hgDiffCache s' !! p =
       (if decide (p ∈ hgDiffCacheFilesToClear s) then None
        else Some (HgService.parseDiff svc diff))
  /\ hgDiffCacheFilesToClear s' = ∅
  /\ (p ∉ hgDiffCacheFilesUpdating s')
  /\ currentHeadId s' = Some h
  /\ emitted s' = emitted s ++ [did_change_statuses].
Proof.
  intros Hrel Hout Hhead Hcontent Hdiff r s'. subst r s'.
  unfold _updateDiffInfo. rewrite pathsToFetch_of_single by done.
  rewrite bool_decide_eq_false_2 by done.
  unfold Rx.switchMap, _getCurrentHeadId, Rx.do_, service.
  assert (Hq : forall u d q,
             foldr delete (<[p := d]> ∅ ∪ u) (elements (hgDiffCacheFilesToClear s)) !! q
             = if decide (q ∈ hgDiffCacheFilesToClear s) then None
               else (<[p := d]> ∅ ∪ u : gmap string DiffInfo) !! q).
  { intros u d q. rewrite foldr_delete_lookup.
    destruct (decide (q ∈ elements (hgDiffCacheFilesToClear s))) as [Hin | Hn].
    - rewrite decide_True; [done | by apply elem_of_elements].
    - by rewrite decide_False by (by rewrite <- elem_of_elements). }
  assert (Hp : forall u d,
             (<[p := d]> ∅ ∪ u : gmap string DiffInfo) !! p = Some d).
  { intros u d. by rewrite lookup_union, lookup_insert_eq, union_Some_l. }
  assert (Hg : p ∉ ({[p]} ∪ hgDiffCacheFilesUpdating s) ∖ ({[p]} : gset string)).
  { intros [_ Hn]%elem_of_difference. apply Hn. by apply elem_of_singleton. }
  destruct Hhead as [Hh | [Hh Hr]]; simpl; rewrite Hh; simpl;
    rewrite ?Hr; simpl; unfold _getFileDiffs, fileContent; simpl;
    unfold LRU.get;
    (destruct Hcontent as [Hc | [Hc Hf]]; simpl; rewrite Hc; simpl;
     unfold Rx.map, Rx.toArray, Rx.merge, Rx.switchMap, Rx.do_, Rx.of_,
       Rx.from, service; simpl;
     rewrite ?Hf; simpl; rewrite Hdiff; simpl;
     unfold Map_of, emitted; simpl;
     rewrite Hq, Hp, !omap_app; simpl; rewrite ?app_nil_r;
     repeat split; try done).
Qed.

(** The diff-stats subscription stays ended. *)
Lemma diffStats_ended_stable :
  stable (fun s => DiffStatsPipeline ∈ endedPipelines s).
Proof.
  split; try (intros; assumption); try (right; intros; assumption).
Qed.

(** X13: a diff update that ends with an error ends the diff-stats
    subscription, which has no error handler: from then on, whatever
    happens to the client, a visible file and a change of the setting reach
    nothing and change nothing. *)
Theorem diffStats_subscription_ended_by_error (svc : HgService.t)
  (filePath : string) (s : SharedMembers) :
  subscriptions_disposed s = false ->
  DiffStatsPipeline ∉ endedPipelines s ->
  Rx.ending (_updateDiffInfo workingDirectory svc [filePath] s).1 = Rx.Errored ->
  let s1 := step StatusCodeIdToNumber workingDirectory svc (DiffStatsFile filePath) s in
  forall actions,
    let s2 := run StatusCodeIdToNumber workingDirectory actions s1 in
    DiffStatsPipeline ∈ endedPipelines s2
    /\ forall svc' filePath',
         step StatusCodeIdToNumber workingDirectory svc' (DiffStatsFile filePath') s2 = s2
         /\ step StatusCodeIdToNumber workingDirectory svc' DiffStatsDisabled s2 = s2.
Proof.
  intros Hsub Hlive Herr s1 actions s2.
  assert (H1 : DiffStatsPipeline ∈ endedPipelines s1).
  { subst s1. simpl. unfold subscribe, run_subscription, Rx.do_. rewrite Hsub.
    rewrite bool_decide_eq_false_2 by done.
    destruct (_updateDiffInfo workingDirectory svc [filePath] s) as [r s'].
    simpl in *. rewrite Herr. simpl. by left. }
  assert (H2 : DiffStatsPipeline ∈ endedPipelines s2).
  { subst s2. by apply (run_stable _ _ _ diffStats_ended_stable). }
  split; [done|]. intros svc' filePath'. simpl. unfold subscribe, run_subscription.
  destruct (subscriptions_disposed s2); [done|].
  by rewrite bool_decide_eq_true_2.
Qed.

End DiffUpdateFacts.

(** ** Memoized fetches *)

Lemma LRU_peek_set {K V : Type} `{EqDecision K} (c : LRU.t K V) (k : K) (v : V) :
  (0 < LRU.max c)%nat -> LRU.peek k (LRU.set k v c) = Some v.
Proof.
  intros Hmax. unfold LRU.peek, LRU.set. simpl.
  destruct (LRU.max c) as [|n]; [lia|]. simpl.
  by rewrite decide_True.
Qed.

Lemma LRU_get_miss {K V : Type} `{EqDecision K} (c : LRU.t K V) (k : K) :
  LRU.peek k c = None -> LRU.get k c = (None, c).
Proof. intros Hp. unfold LRU.get. by rewrite Hp. Qed.

Section MemoFacts.

(** X14: the changes of a revision are fetched once: after
    [fetchFilesChangedAtRevision] got them from the backend on a miss, a
    second lookup of the revision answers the same changes whatever the
    backend would say, without a call. *)
Theorem fetchFilesChangedAtRevision_memoized (svc svc' : HgService.t)
  (revision : string) (changes : RevisionFileChanges.t) (s : SharedMembers) :
  (0 < LRU.max (revisionIdToFileChanges s))%nat ->
  LRU.peek revision (revisionIdToFileChanges s) = None ->
  HgService.fetchFilesChangedAtRevision svc revision
    = Rx.mkRun [changes] Rx.Completed ->
  let first := fetchFilesChangedAtRevision svc revision s in
  let second := fetchFilesChangedAtRevision svc' revision first.2 in
  first.1 = Rx.mkRun [changes] Rx.Completed
  /\ effects first.2 = effects s ++ [Service (fetchFilesChangedAtRevision_ revision)]
  /\ second.1 = Rx.mkRun [changes] Rx.Completed
  /\ effects second.2 = effects first.2.
Proof.
  intros Hmax Hmiss Hr first second.
  assert (H1 : exists s1,
             first = (Rx.mkRun [changes] Rx.Completed, s1)
             /\ effects s1
                = effects s ++ [Service (fetchFilesChangedAtRevision_ revision)]
             /\ revisionIdToFileChanges s1
                = LRU.set revision changes (revisionIdToFileChanges s)).
  { subst first. unfold fetchFilesChangedAtRevision.
    rewrite (LRU_get_miss _ _ Hmiss). unfold Rx.do_, service. rewrite Hr. simpl.
    eexists. repeat split. }
  destruct H1 as (s1 & H1 & He & Hc). subst second. rewrite H1. simpl.
  split; [done|]. split; [done|].
  unfold fetchFilesChangedAtRevision, LRU.get.
  rewrite Hc, LRU_peek_set by done. done.
Qed.

(** X15: the content of a file at a revision is fetched once: after
    [fetchFileContentAtRevision] got it from the backend for a revision
    that was not cached, a second lookup of the same file and revision
    answers the same content whatever the backend would say, without a
    call. *)
Theorem fetchFileContentAtRevision_memoized (svc svc' : HgService.t)
  (filePath revision contents : string) (s : SharedMembers) :
  (0 < LRU.max (fileContentsAtRevisionIds s))%nat ->
  LRU.peek revision (fileContentsAtRevisionIds s) = None ->
  HgService.fetchFileContentAtRevision svc filePath revision
    = Rx.mkRun [contents] Rx.Completed ->
  let first := fetchFileContentAtRevision svc filePath revision s in
  let second := fetchFileContentAtRevision svc' filePath revision first.2 in
  first.1 = Rx.mkRun [contents] Rx.Completed
  /\ effects first.2
     = effects s ++ [Service (fetchFileContentAtRevision_ filePath revision)]
  /\ second.1 = Rx.mkRun [contents] Rx.Completed
  /\ effects second.2 = effects first.2.
Proof.
  intros Hmax Hmiss Hr first second.
  assert (H1 : exists s1 object,
             first = (Rx.mkRun [contents] Rx.Completed, s1)
             /\ effects s1
                = effects s ++ [Service (fetchFileContentAtRevision_ filePath revision)]
             /\ fileContentsAtRevisionIds s1
                = LRU.set revision object (fileContentsAtRevisionIds s)
             /\ mapObjects s1 !! object = Some (<[filePath := contents]> ∅)).
  { subst first. unfold fetchFileContentAtRevision.
    rewrite (LRU_get_miss _ _ Hmiss). simpl.
    rewrite lookup_insert_eq. simpl. rewrite lookup_empty.
    unfold Rx.do_, service. rewrite Hr. simpl.
    eexists. eexists. repeat split.
    simpl. by rewrite lookup_alter_eq, lookup_insert_eq. }
  destruct H1 as (s1 & object & H1 & He & Hc & Ho). subst second. rewrite H1. simpl.
  split; [done|]. split; [done|].
  unfold fetchFileContentAtRevision, LRU.get.
  rewrite Hc, LRU_peek_set by done. simpl. rewrite Ho. simpl.
  by rewrite lookup_insert_eq.
Qed.

End MemoFacts.

(** ** The bookmarks *)

Section BookmarkFacts.

Variable StatusCodeIdToNumber : string -> Z.
Variable workingDirectory : Directory.

(** X16: when one of the three attempts to fetch the bookmarks succeeds
    within the timeout, the attempts before it having failed, the bookmarks
    become the fetched list with the loading flag lowered, no further attempt
    is made and nothing is logged. *)
Theorem bookmarks_replaced_on_first_success (svc : HgService.t) (i : nat)
  (ms : Z) (fetched : list BookmarkInfo) (s : SharedMembers) :
  (i < 3)%nat ->
  (forall j, (j < i)%nat -> fetchBookmarks_fails (HgService.fetchBookmarks svc j)) ->
  HgService.fetchBookmarks svc i = Rx.Fulfills ms fetched ->
  ms < FETCH_BOOKMARKS_TIMEOUT ->
  subscriptions_disposed s = false ->
  BookmarksPipeline ∉ endedPipelines s ->
  let s' := step StatusCodeIdToNumber workingDirectory svc BookmarksTrigger s in
  bookmarks s' = Bookmarks.mk false fetched
  /\ effects s' = effects s ++ replicate (S i) (Service fetchBookmarks_)
  /\ endedPipelines s' = endedPipelines s.
Proof.
  intros Hi Hfail Hok Hms Hsub Hlive. simpl. unfold subscribe, run_subscription.
  rewrite Hsub, bool_decide_eq_false_2 by done.
  unfold bookmarksUpdates, Rx.do_, Rx.switchMap, Rx.catch, Rx.of_, service. simpl.
  apply Z.ltb_lt in Hms.
  destruct i as [|[|[|i]]]; [| | |lia].
  - rewrite Hok. simpl. rewrite Hms. simpl. done.
  - rewrite (fetchBookmarks_fails_run _ (Hfail 0%nat ltac:(lia))). simpl.
    rewrite Hok. simpl. rewrite Hms. simpl. by rewrite <- !app_assoc.
  - rewrite (fetchBookmarks_fails_run _ (Hfail 0%nat ltac:(lia))). simpl.
    rewrite (fetchBookmarks_fails_run _ (Hfail 1%nat ltac:(lia))). simpl.
    rewrite Hok. simpl. rewrite Hms. simpl. by rewrite <- !app_assoc.
Qed.

End BookmarkFacts.

(** X17: [getShortHead] is the name of the first active bookmark of the
    list, and the empty string when no bookmark is active. *)
Theorem getShortHead_first_active (s : SharedMembers) :
  getShortHead s =
  match list_find (fun b => active b = true) (Bookmarks.bookmarks (bookmarks s)) with
  | Some (_, b) => bookmark b
  | None => ""
  end.
Proof.
  unfold getShortHead. induction (Bookmarks.bookmarks (bookmarks s)) as [|b l IH].
  - done.
  - rewrite filter_cons. simpl. destruct (decide (active b = true)) as [Hb | Hb].
    + simpl. unfold or_empty. by case_bool_decide.
    + rewrite IH. by destruct (list_find _ l) as [[n b']|].
Qed.

(** ** The run of the bookmarks pipeline *)

(** A run of [bookmarksUpdates] over several triggers is its run over the
    first, whatever the backend answered, followed by its run over the
    others. *)
Lemma bookmarksUpdates_cons (svc : HgService.t) (l : list unit) (s : SharedMembers) :
  bookmarksUpdates svc (Rx.from (Rx.mkRun (tt :: l) Rx.Completed)) s =
  let '(r1, s1) := bookmarksUpdates svc (Rx.of_ tt) s in
  let '(r2, s2) := bookmarksUpdates svc (Rx.from (Rx.mkRun l Rx.Completed)) s1 in
  (Rx.mkRun (Rx.emits r1 ++ Rx.emits r2) (Rx.ending r2), s2).
Proof.
  unfold bookmarksUpdates, Rx.switchMap, Rx.from, Rx.of_. simpl.
  match goal with
  | |- context [Rx.catch ?h ?o s] =>
      pose proof (catch_empty_ending
                    (effect (LogError "failed to fetch bookmarks info:")) o s) as Hc;
      destruct (Rx.catch h o s) as [r s1]
  end.
  simpl in *. rewrite Hc. simpl.
  destruct (Rx.each _ l _) as [r2 s2]. simpl.
  rewrite app_nil_r. by destruct (Rx.ending r2).
Qed.

Lemma bookmarksUpdates_failing (svc : HgService.t) (s : SharedMembers) :
  (forall i, (i < 3)%nat -> fetchBookmarks_fails (HgService.fetchBookmarks svc i)) ->
  bookmarksUpdates svc (Rx.of_ tt) s =
  (Rx.mkRun [] Rx.Completed,
   set_effects (effects s ++ [Service fetchBookmarks_; Service fetchBookmarks_;
                              Service fetchBookmarks_;
                              LogError "failed to fetch bookmarks info:"]) s).
Proof.
  intros Hfail.
  unfold bookmarksUpdates, Rx.switchMap, Rx.catch, Rx.of_, service. simpl.
  rewrite !fetchBookmarks_fails_run by (apply Hfail; lia). simpl.
  unfold effect. simpl. by rewrite <- !app_assoc.
Qed.

Lemma bookmarksUpdates_failing_triggers (svc : HgService.t) (n : nat)
  (s : SharedMembers) :
  (forall i, (i < 3)%nat -> fetchBookmarks_fails (HgService.fetchBookmarks svc i)) ->
  let many := bookmarksUpdates svc (triggers n) s in
  many.1 = Rx.mkRun [] Rx.Completed
  /\ effects many.2 =
       effects s ++ concat (replicate n [Service fetchBookmarks_; Service fetchBookmarks_;
                                         Service fetchBookmarks_;
                                         LogError "failed to fetch bookmarks info:"]).
Proof.
  intros Hfail. revert s. induction n as [|n IH]; intros s.
  - simpl. by rewrite app_nil_r.
  - unfold triggers. simpl replicate. cbv zeta. rewrite bookmarksUpdates_cons.
    rewrite bookmarksUpdates_failing by done.
    match goal with
    | |- context [bookmarksUpdates _ _ ?s1] =>
        specialize (IH s1); unfold triggers in IH;
        destruct (bookmarksUpdates svc
                    (Rx.from (Rx.mkRun (replicate n tt) Rx.Completed)) s1)
          as [r2 s2]
    end.
    simpl in *. destruct IH as (-> & ->). by rewrite <- !app_assoc.
Qed.

(** ** Further facts on the caches and the streams *)

Section StreamFacts.

Variable StatusCodeIdToNumber : string -> Z.
Variable workingDirectory : Directory.

(** X18: a clearing with paths keeps the head-content cache and the cached
    head revision, and emits [did-change-statuses] once, however many paths
    it is given. *)
Theorem _clearClientCache_paths_keeps_head (filePaths : list string)
  (s : SharedMembers) :
  filePaths <> [] ->
  let s' := _clearClientCache filePaths s in
  fileContentsAtHead s' = fileContentsAtHead s
  /\ currentHeadId s' = currentHeadId s
  /\ emitted s' = emitted s ++ [did_change_statuses].
Proof.
  intros Hne s'. subst s'. unfold _clearClientCache.
  rewrite bool_decide_eq_false_2 by (by destruct filePaths).
  unfold emit. rewrite emitted_effect. unfold effect, set_effects, emitted.
  cbn [fileContentsAtHead currentHeadId effects].
  assert (H : forall l s0,
             let s1 := foldl (fun s filePath =>
                                let s := set_hgDiffCache (delete filePath (hgDiffCache s)) s in
                                set_hgStatusCache (delete filePath (hgStatusCache s)) s)
                             s0 l in
             fileContentsAtHead s1 = fileContentsAtHead s0
             /\ currentHeadId s1 = currentHeadId s0 /\ effects s1 = effects s0).
  { induction l as [|q l IH]; intros s0; [done|].
    exact (IH (set_hgStatusCache (delete q (hgStatusCache s0))
                 (set_hgDiffCache (delete q (hgDiffCache s0)) s0))). }
  destruct (H filePaths s) as (H1 & H2 & H3). cbv zeta in *.
  by rewrite H1, H2, H3.
Qed.

Lemma fromPromise_timeout_cases {A} (due : Z) (p : Rx.PromiseRun A) :
  (exists a, Rx.fromPromise_timeout due p = Rx.mkRun [a] Rx.Completed)
  \/ Rx.fromPromise_timeout due p = Rx.mkRun [] Rx.Errored.
Proof.
  destruct p as [ms a| |]; simpl; [|by right..].
  destruct (ms <? due); [left; by exists a | by right].
Qed.

(** X20: a trigger of the bookmarks pipeline, whatever the backend answers
    to the three attempts, never ends the pipeline and never raises the
    loading flag: either the bookmarks are left as they were, or the flag is
    lowered.  The triggers after it are handled all the same: a run over
    several triggers is the run over the first followed by the run over the
    others, and when every attempt fails, [n] triggers make three attempts
    and log one failure each. *)
Theorem bookmarks_trigger_contained (svc : HgService.t) (s : SharedMembers) :
  let s' := step StatusCodeIdToNumber workingDirectory svc BookmarksTrigger s in
  endedPipelines s' = endedPipelines s
  /\ (bookmarks s' = bookmarks s \/ Bookmarks.isLoading (bookmarks s') = false)
  /\ (forall (l : list unit) (s0 : SharedMembers),
        bookmarksUpdates svc (Rx.from (Rx.mkRun (tt :: l) Rx.Completed)) s0 =
        let '(r1, s1) := bookmarksUpdates svc (Rx.of_ tt) s0 in
        let '(r2, s2) :=
          bookmarksUpdates svc (Rx.from (Rx.mkRun l Rx.Completed)) s1 in
        (Rx.mkRun (Rx.emits r1 ++ Rx.emits r2) (Rx.ending r2), s2))
  /\ ((forall i, (i < 3)%nat ->
                 fetchBookmarks_fails (HgService.fetchBookmarks svc i)) ->
      forall n s0,
        let many := bookmarksUpdates svc (triggers n) s0 in
        many.1 = Rx.mkRun [] Rx.Completed
        /\ effects many.2 =
             effects s0
               ++ concat (replicate n [Service fetchBookmarks_; Service fetchBookmarks_;
                                       Service fetchBookmarks_;
                                       LogError "failed to fetch bookmarks info:"])).
Proof.
  intros s'.
  assert (H : endedPipelines s' = endedPipelines s
              /\ (bookmarks s' = bookmarks s
                  \/ Bookmarks.isLoading (bookmarks s') = false)).
  { subst s'. simpl. unfold subscribe, run_subscription.
    destruct (subscriptions_disposed s); [by split; [|left]|].
    destruct (bool_decide _); [by split; [|left]|].
    unfold bookmarksUpdates, Rx.do_, Rx.switchMap, Rx.catch, Rx.of_, service. simpl.
    destruct (fromPromise_timeout_cases FETCH_BOOKMARKS_TIMEOUT
                (HgService.fetchBookmarks svc 0)) as [[a ->] | ->]; simpl;
      [by split; [|right]|].
    destruct (fromPromise_timeout_cases FETCH_BOOKMARKS_TIMEOUT
                (HgService.fetchBookmarks svc 1)) as [[a ->] | ->]; simpl;
      [by split; [|right]|].
    destruct (fromPromise_timeout_cases FETCH_BOOKMARKS_TIMEOUT
                (HgService.fetchBookmarks svc 2)) as [[a ->] | ->]; simpl;
      [by split; [|right] | by split; [|left]]. }
  destruct H as [H1 H2]. split; [done|]. split; [done|]. split.
  - intros l s0. apply bookmarksUpdates_cons.
  - intros Hfail n s0. by apply bookmarksUpdates_failing_triggers.
Qed.

End StreamFacts.

(** ** The head revision stream *)

Lemma last_cons_default {A} (x : A) (l : list A) :
  last (x :: l) = Some (default x (last l)).
Proof. rewrite last_cons. by destruct (last l). Qed.

Lemma distinctUntilChanged_after_spec {A} (same : A -> A -> bool) (prev : A)
  (l : list A) (P : A -> Prop) :
  Forall P l ->
  Forall P (distinctUntilChanged_after same prev l)
  /\ (forall x, head (distinctUntilChanged_after same prev l) = Some x ->
                same prev x = false)
  /\ forall i a b,
       distinctUntilChanged_after same prev l !! i = Some a ->
       distinctUntilChanged_after same prev l !! S i = Some b ->
       same a b = false.
Proof.
  revert prev. induction l as [|x l IH]; intros prev Hl; simpl.
  - repeat split; [constructor | done | done].
  - apply Forall_cons in Hl as [Hx Hl].
    destruct (same prev x) eqn:E; [by apply IH|].
    destruct (IH x Hl) as (H1 & H2 & H3).
    split; [by constructor|]. split; [by intros ? [= <-]|].
    intros [|i] a b Ha Hb; simpl in *.
    + injection Ha as <-. apply H2. by rewrite head_lookup.
    + by apply (H3 i).
Qed.

(** Two values in a row of [o.distinctUntilChanged(same)] are never the
    same. *)
Lemma distinctUntilChanged_with_changes {A} (same : A -> A -> bool) (l : list A)
  (i : nat) (a b : A) :
  distinctUntilChanged_with same l !! i = Some a ->
  distinctUntilChanged_with same l !! S i = Some b ->
  same a b = false.
Proof.
  destruct l as [|x l]; [done|]. simpl.
  destruct (distinctUntilChanged_after_spec same x l (fun _ => True))
    as (_ & H2 & H3); [by apply Forall_forall|].
  destruct i as [|i]; simpl; intros Ha Hb.
  - injection Ha as <-. apply H2. by rewrite head_lookup.
  - by apply (H3 i).
Qed.

(** The values that arrive later are compared with the last one that
    passed. *)
Lemma distinctUntilChanged_after_app {A} (same : A -> A -> bool) (prev : A)
  (l1 l2 : list A) :
  distinctUntilChanged_after same prev (l1 ++ l2) =
  distinctUntilChanged_after same prev l1
    ++ distinctUntilChanged_after same
         (default prev (last (distinctUntilChanged_after same prev l1))) l2.
Proof.
  revert prev. induction l1 as [|x l1 IH]; intros prev; simpl; [done|].
  destruct (same prev x); [apply IH|].
  rewrite IH. simpl. f_equal. f_equal. f_equal.
  by rewrite last_cons_default.
Qed.

Lemma distinctUntilChanged_with_app {A} (same : A -> A -> bool) (l1 l2 : list A) :
  distinctUntilChanged_with same (l1 ++ l2) =
  match last (distinctUntilChanged_with same l1) with
  | None => distinctUntilChanged_with same l2
  | Some prev =>
      distinctUntilChanged_with same l1 ++ distinctUntilChanged_after same prev l2
  end.
Proof.
  destruct l1 as [|x l1]; [done|].
  cbn [app distinctUntilChanged_with]. rewrite last_cons_default.
  by rewrite distinctUntilChanged_after_app.
Qed.

Lemma distinctUntilChanged_after_false {A} (l : list A) :
  distinctUntilChanged_after (fun a b : bool => bool_decide (a = b)) false
    ((fun _ => false) <$> l) = [].
Proof. induction l as [|x l IH]; [done|]. simpl. apply IH. Qed.

Lemma distinctUntilChanged_after_true {A} (l : list A) :
  distinctUntilChanged_after (fun a b : bool => bool_decide (a = b)) true
    ((fun _ => false) <$> l) = match l with [] => [] | _ :: _ => [false] end.
Proof.
  destruct l as [|x l]; [done|]. simpl. f_equal.
  apply distinctUntilChanged_after_false.
Qed.

(** What one more trigger adds to [isCalculatingChanges]: true, unless true
    was its last value, and then false, when the trigger brought a value of
    [statusChanges]. *)
Lemma isCalculatingChanges_snoc (cycles : list (list (gmap string Z)))
  (next : list (gmap string Z)) :
  isCalculatingChanges (cycles ++ [next]) =
  isCalculatingChanges cycles
    ++ match last (isCalculatingChanges cycles) with
       | Some true => []
       | _ => [true]
       end
    ++ match next with [] => [] | _ :: _ => [false] end.
Proof.
  unfold isCalculatingChanges. rewrite bind_app.
  rewrite distinctUntilChanged_with_app.
  change ([next] ≫= _) with ((true :: ((fun _ => false) <$> next)) ++ []).
  rewrite app_nil_r.
  destruct (last _) as [[|]|] eqn:E.
  - simpl. by rewrite distinctUntilChanged_after_true.
  - simpl. by rewrite distinctUntilChanged_after_true.
  - apply last_None in E. rewrite E. simpl.
    by rewrite distinctUntilChanged_after_true.
Qed.

Section CalculatingFacts.

Variable StatusCodeIdToNumber : string -> Z.

(** X19: [isCalculatingChanges] over the life of a status pipeline.  One
    [distinctUntilChanged] runs over all the triggers, so what a trigger adds
    depends on the last value before it: true, unless true was the last
    value (the trigger before brought no snapshot, for instance because its
    fetch failed), and then false, when the fetch of this trigger brings at
    least one snapshot.  The last value after a trigger is therefore true
    exactly when its fetch brought nothing, and no two values in a row are
    equal. *)
Theorem isCalculatingChanges_after_trigger (svc : HgService.t) (ch : Channel)
  (s : SharedMembers) (cycles : list (list (gmap string Z))) :
  let next := Rx.emits (hgStatusChanges StatusCodeIdToNumber svc ch (Rx.of_ tt) s).1 in
  let before := isCalculatingChanges cycles in
  let out := isCalculatingChanges (cycles ++ [next]) in
  out = before
          ++ match last before with
             | Some true => []
             | _ => [true]
             end
          ++ match Rx.emits (fetchStatuses_answer svc ch) with
             | [] => []
             | _ :: _ => [false]
             end
  /\ last out = Some (match Rx.emits (fetchStatuses_answer svc ch) with
                      | [] => true
                      | _ :: _ => false
                      end)
  /\ forall i a b, out !! i = Some a -> out !! S i = Some b -> a <> b.
Proof.
  intros next before out.
  assert (Hout : out = before
                   ++ match last before with
                      | Some true => []
                      | _ => [true]
                      end
                   ++ match Rx.emits (fetchStatuses_answer svc ch) with
                      | [] => []
                      | _ :: _ => [false]
                      end).
  { subst out before next. rewrite isCalculatingChanges_snoc.
    rewrite hgStatusChanges_trigger. simpl.
    by destruct (Rx.emits (fetchStatuses_answer svc ch)). }
  split; [done|]. split.
  - rewrite Hout. destruct (Rx.emits (fetchStatuses_answer svc ch)).
    + rewrite app_nil_r. destruct (last before) as [[|]|] eqn:E.
      * by rewrite app_nil_r.
      * by rewrite last_snoc.
      * by rewrite last_snoc.
    + by rewrite !app_assoc, last_snoc.
  - intros i a b Ha Hb.
    pose proof (distinctUntilChanged_with_changes _ _ _ _ _ Ha Hb) as Hab.
    by apply bool_decide_eq_false in Hab.
Qed.

End CalculatingFacts.

(** What one more answer of the backend adds to [observeHeadRevision]. *)
Lemma observeHeadRevision_snoc (revisionChanges : list RevisionInfoFetched.t)
  (revisionInfoFetched : RevisionInfoFetched.t) :
  observeHeadRevision (revisionChanges ++ [revisionInfoFetched]) =
  match list_find (fun revision => RevisionInfo.isHead revision = true)
                  (RevisionInfoFetched.revisions revisionInfoFetched) with
  | None => observeHeadRevision revisionChanges
  | Some (_, nextRev) =>
      match last (observeHeadRevision revisionChanges) with
      | None => [nextRev]
      | Some prevRev =>
          if bool_decide (RevisionInfo.hash prevRev = RevisionInfo.hash nextRev)
          then observeHeadRevision revisionChanges
          else observeHeadRevision revisionChanges ++ [nextRev]
      end
  end.
Proof.
  unfold observeHeadRevision. rewrite omap_app. simpl.
  destruct (list_find _ _) as [[i nextRev]|]; simpl; [|by rewrite app_nil_r].
  rewrite distinctUntilChanged_with_app.
  destruct (last _) as [prevRev|]; [|done]. simpl.
  destruct (bool_decide _); [by rewrite app_nil_r | done].
Qed.

(** X21: [observeHeadRevision] emits head revisions only, and never two in a
    row with the same hash.  What it emits follows the answers of the backend
    one by one: an answer without a head revision adds nothing; otherwise
    the first revision of the answer whose [isHead] is set is emitted, unless
    its hash is that of the last revision emitted before. *)
Theorem observeHeadRevision_distinct_heads
  (revisionChanges : list RevisionInfoFetched.t) :
  let out := observeHeadRevision revisionChanges in
  Forall (fun revision => RevisionInfo.isHead revision = true) out
  /\ (forall i a b,
        out !! i = Some a -> out !! S i = Some b ->
        RevisionInfo.hash a <> RevisionInfo.hash b)
  /\ observeHeadRevision [] = []
  /\ (forall revisionInfoFetched,
        (forall revision,
            revision ∈ RevisionInfoFetched.revisions revisionInfoFetched ->
            RevisionInfo.isHead revision = false) ->
        observeHeadRevision (revisionChanges ++ [revisionInfoFetched]) = out)
  /\ (forall revisionInfoFetched i nextRev,
        RevisionInfoFetched.revisions revisionInfoFetched !! i = Some nextRev ->
        RevisionInfo.isHead nextRev = true ->
        (forall j revision,
            RevisionInfoFetched.revisions revisionInfoFetched !! j = Some revision ->
            (j < i)%nat -> RevisionInfo.isHead revision = false) ->
        observeHeadRevision (revisionChanges ++ [revisionInfoFetched]) =
        match last out with
        | None => [nextRev]
        | Some prevRev =>
            if bool_decide (RevisionInfo.hash prevRev = RevisionInfo.hash nextRev)
            then out
            else out ++ [nextRev]
        end).
Proof.
  intros out. subst out.
  split; [|split; [|split; [|split]]].
  - unfold observeHeadRevision.
    match goal with
    | |- context [omap ?f revisionChanges] => set (heads := omap f revisionChanges)
    end.
    assert (Hh : Forall (fun revision => RevisionInfo.isHead revision = true) heads).
    { subst heads. apply Forall_forall. intros r (f & _ & Hf)%list_elem_of_omap.
      destruct (list_find _ _) as [[i r']|] eqn:E; [|done]. simpl in Hf.
      injection Hf as <-. by apply list_find_Some in E as (_ & E & _). }
    destruct heads as [|x l]; simpl; [constructor|].
    apply Forall_cons in Hh as [Hx Hl]. constructor; [done|].
    by apply distinctUntilChanged_after_spec.
  - intros i a b Ha Hb.
    pose proof (distinctUntilChanged_with_changes _ _ _ _ _ Ha Hb) as Hab.
    by apply bool_decide_eq_false in Hab.
  - done.
  - intros f Hnone. rewrite observeHeadRevision_snoc.
    destruct (list_find _ _) as [[i r]|] eqn:E; [|done].
    apply list_find_Some in E as (Hi & Hr & _).
    apply list_elem_of_lookup_2 in Hi. apply Hnone in Hi. congruence.
  - intros f i nextRev Hi Hhead Hfirst. rewrite observeHeadRevision_snoc.
    assert (E : list_find (fun revision => RevisionInfo.isHead revision = true)
                  (RevisionInfoFetched.revisions f) = Some (i, nextRev)).
    { apply list_find_Some. split; [done|]. split; [done|].
      intros j r Hj Hlt. rewrite (Hfirst j r Hj Hlt). done. }
    by rewrite E.
Qed.

(** ** The further properties on concrete clients *)

Lemma predicates_on_cached_status_witness :
  isPathNew sample_codes (Some "/repo/a.txt") refreshed_client = true
  /\ getCachedPathStatus sample_codes (Some "/repo/a.txt") refreshed_client = 1.
Proof.
  destruct (predicates_on_cached_status sample_codes "/repo/a.txt" 1
              refreshed_client) as (_ & H2 & _ & _ & _ & H6).
  - discriminate.
  - vm_compute. reflexivity.
  - lia.
  - split; [apply H2; by left | exact H6].
Defined.

Lemma status_cache_follows_snapshot_witness :
  getPathStatus sample_codes "/repo/b.txt" refreshed_client = 4.
Proof.
  destruct (status_cache_follows_snapshot sample_codes sample_ids sample_directory
              (working_service "A")
              {["/repo/a.txt" := "A"; "/repo/b.txt" := "M"]} fresh_client)
    as (_ & _ & H3).
  - change (StatusPipeline Uncommitted ∉ []). apply not_elem_of_nil.
  - reflexivity.
  - reflexivity.
  - etransitivity; [apply (H3 "/repo/b.txt"); discriminate|].
    vm_compute. reflexivity.
Defined.

Lemma status_cache_kept_by_other_channels_witness :
  hgStatusCache (step sample_ids sample_directory (working_service "A")
                      (StatusTrigger Stack) refreshed_client)
  = hgStatusCache refreshed_client.
Proof.
  apply (status_cache_kept_by_other_channels sample_ids sample_directory
           (working_service "A") Stack refreshed_client).
  left. discriminate.
Defined.

Lemma reads_after_successful_commit_witness :
  getPathStatus sample_codes "/repo/b.txt"
    (invoke (working_service "A") (Commit "message" []) refreshed_client).2 = 2.
Proof.
  apply (reads_after_successful_commit sample_codes (working_service "A")
           (Commit "message" []) [] "/repo/b.txt" refreshed_client).
  - left. by exists "message".
  - vm_compute. reflexivity.
  - by left.
Defined.

Lemma caches_kept_without_success_witness :
  hgStatusCache (invoke failing_service (Commit "message" []) refreshed_client).2
  = hgStatusCache refreshed_client.
Proof.
  apply (caches_kept_without_success failing_service (Commit "message" [])
           refreshed_client).
  vm_compute. reflexivity.
Defined.

Lemma diffs_dropped_on_revisions_trigger_witness :
  getDiffStats (Some "/repo/b.txt") diffed_client = (1, 0)
  /\ getDiffStats (Some "/repo/b.txt")
       (step sample_ids sample_directory (working_service "B") RevisionsTrigger
             diffed_client) = (0, 0).
Proof.
  split; [vm_compute; reflexivity|].
  destruct (diffs_dropped_on_revisions_trigger sample_ids sample_directory
              (working_service "B") diffed_client) as (H1 & _).
  - vm_compute. reflexivity.
  - change (RevisionsPipeline ∉ []). apply not_elem_of_nil.
  - apply H1.
Defined.

Lemma _updateDiffInfo_nothing_to_fetch_witness :
  _updateDiffInfo sample_directory (working_service "A") ["/elsewhere/a.txt"]
                  fresh_client
  = (Rx.mkRun [∅] Rx.Completed, fresh_client).
Proof.
  apply (_updateDiffInfo_nothing_to_fetch sample_directory (working_service "A")
           ["/elsewhere/a.txt"] fresh_client).
  intros p Hp. apply list_elem_of_singleton in Hp as ->. left.
  vm_compute. reflexivity.
Defined.

Lemma _getCurrentHeadId_memoized_witness :
  (_getCurrentHeadId (working_service "B")
     (_getCurrentHeadId (working_service "A") fresh_client).2).1
  = Rx.mkRun [Some "A"] Rx.Completed.
Proof.
  destruct (_getCurrentHeadId_memoized (working_service "A") (working_service "B")
              "A" fresh_client) as (_ & _ & H3).
  - reflexivity.
  - reflexivity.
  - by rewrite H3.
Defined.

Lemma _updateDiffInfo_without_head_witness :
  emitted (_updateDiffInfo sample_directory headless_service ["/repo/b.txt"]
                           refreshed_client).2
  = emitted refreshed_client.
Proof.
  apply (_updateDiffInfo_without_head sample_directory headless_service
           ["/repo/b.txt"] refreshed_client).
  - vm_compute. reflexivity.
  - right. reflexivity.
Defined.

Lemma _updateDiffInfo_single_path_witness :
  hgDiffCache (_updateDiffInfo sample_directory (working_service "A")
                               ["/repo/b.txt"] refreshed_client).2
    !! "/repo/b.txt"
  = Some {| added := 1; deleted := 0; lineDiffs := [] |}.
Proof.
  destruct (_updateDiffInfo_single_path sample_directory (working_service "A")
              "/repo/b.txt" "A" "old" "diff" refreshed_client)
    as (_ & H2 & _).
  - vm_compute. reflexivity.
  - change ("/repo/b.txt" ∉ (∅ : gset string)). apply not_elem_of_empty.
  - right. split; [vm_compute; reflexivity | reflexivity].
  - right. split; [vm_compute; reflexivity | reflexivity].
  - reflexivity.
  - etransitivity; [exact H2|]. vm_compute. reflexivity.
Defined.

Lemma diffStats_subscription_ended_by_error_witness :
  let s1 := step sample_ids sample_directory failing_service
                 (DiffStatsFile "/repo/b.txt") refreshed_client in
  step sample_ids sample_directory (working_service "A")
       (DiffStatsFile "/repo/b.txt") s1 = s1.
Proof.
  intros s1.
  destruct (diffStats_subscription_ended_by_error sample_ids sample_directory
              failing_service "/repo/b.txt" refreshed_client) with (actions := @nil (HgService.t * Action))
    as (_ & H2).
  - vm_compute. reflexivity.
  - change (DiffStatsPipeline ∉ []). apply not_elem_of_nil.
  - vm_compute. reflexivity.
  - apply (H2 (working_service "A") "/repo/b.txt").
Defined.

Lemma fetchFilesChangedAtRevision_memoized_witness :
  (fetchFilesChangedAtRevision failing_service "A"
     (fetchFilesChangedAtRevision (working_service "A") "A" fresh_client).2).1
  = Rx.mkRun [RevisionFileChanges.mk [] [] [] [] []] Rx.Completed.
Proof.
  destruct (fetchFilesChangedAtRevision_memoized (working_service "A")
              failing_service "A" (RevisionFileChanges.mk [] [] [] [] [])
              fresh_client) as (_ & _ & H3 & _).
  - vm_compute. lia.
  - vm_compute. reflexivity.
  - reflexivity.
  - exact H3.
Defined.

Lemma fetchFileContentAtRevision_memoized_witness :
  (fetchFileContentAtRevision failing_service "/repo/a.txt" "A"
     (fetchFileContentAtRevision (working_service "A") "/repo/a.txt" "A"
                                 fresh_client).2).1
  = Rx.mkRun ["old"] Rx.Completed.
Proof.
  destruct (fetchFileContentAtRevision_memoized (working_service "A")
              failing_service "/repo/a.txt" "A" "old" fresh_client)
    as (_ & _ & H3 & _).
  - vm_compute. lia.
  - vm_compute. reflexivity.
  - reflexivity.
  - exact H3.
Defined.

Lemma bookmarks_replaced_on_first_success_witness :
  bookmarks (step sample_ids sample_directory recovering_service BookmarksTrigger
                  fresh_client)
  = Bookmarks.mk false [{| active := true; bookmark := "main"; node := "A" |}].
Proof.
  destruct (bookmarks_replaced_on_first_success sample_ids sample_directory
              recovering_service 1 10
              [{| active := true; bookmark := "main"; node := "A" |}]
              fresh_client) as (H1 & _).
  - lia.
  - intros j Hj. assert (j = 0%nat) as -> by lia. vm_compute. reflexivity.
  - reflexivity.
  - vm_compute. reflexivity.
  - reflexivity.
  - change (BookmarksPipeline ∉ []). apply not_elem_of_nil.
  - exact H1.
Defined.

Lemma _clearClientCache_paths_keeps_head_witness :
  fileContentsAtHead (_clearClientCache ["/repo/a.txt"] diffed_client)
  = fileContentsAtHead diffed_client.
Proof.
  apply (_clearClientCache_paths_keeps_head ["/repo/a.txt"] diffed_client).
  discriminate.
Defined.

(** After a trigger whose fetch brought nothing, the next trigger with a
    successful fetch adds only false. *)
Lemma isCalculatingChanges_after_trigger_witness :
  isCalculatingChanges
    ([[]] ++ [Rx.emits (hgStatusChanges sample_ids (working_service "A") Uncommitted
                          (Rx.of_ tt) fresh_client).1])
  = [true; false].
Proof.
  exact (proj1 (isCalculatingChanges_after_trigger sample_ids (working_service "A")
                  Uncommitted fresh_client [[]])).
Defined.

Lemma bookmarks_trigger_contained_witness :
  effects (bookmarksUpdates failing_service (triggers 2) fresh_client).2
  = [Service fetchBookmarks_; Service fetchBookmarks_; Service fetchBookmarks_;
     LogError "failed to fetch bookmarks info:";
     Service fetchBookmarks_; Service fetchBookmarks_; Service fetchBookmarks_;
     LogError "failed to fetch bookmarks info:"].
Proof.
  destruct (bookmarks_trigger_contained sample_ids sample_directory
              failing_service fresh_client) as (_ & _ & _ & H).
  destruct (H (fun i Hi => eq_refl) 2%nat fresh_client) as [_ H2].
  exact H2.
Defined.

Lemma observeHeadRevision_distinct_heads_witness :
  observeHeadRevision
    ([RevisionInfoFetched.mk [RevisionInfo.mk 1 "a" true] false]
       ++ [RevisionInfoFetched.mk
             [RevisionInfo.mk 1 "a" false; RevisionInfo.mk 2 "b" true;
              RevisionInfo.mk 3 "c" true] true])
  = [RevisionInfo.mk 1 "a" true; RevisionInfo.mk 2 "b" true].
Proof.
  destruct (observeHeadRevision_distinct_heads
              [RevisionInfoFetched.mk [RevisionInfo.mk 1 "a" true] false])
    as (_ & _ & _ & _ & H).
  apply (H _ 1%nat (RevisionInfo.mk 2 "b" true)).
  - reflexivity.
  - reflexivity.
  - intros [|j] revision Hj Hlt; [|lia].
    injection Hj as <-. reflexivity.
Defined.
